(** * AP-Sionna-Test: the AP loaders and the placeholder coverage estimator

    A shallow embedding of the loader, path-loss and coverage-aggregation
    code of [src/sionna-simulation], and the properties of it that the
    specification states.

    Numbers.  Python [float] values are modelled by the real numbers of the
    Standard Library: [np.sqrt] is [sqrt], [np.log10] is [ln x / ln 10], and
    [>] and [<=] are the order of [R].  Rounding, overflow, infinities and
    NaN are outside the model: every statement below is about the exact
    values of the expressions the code evaluates. *)

From Stdlib Require Import Reals Lra Lia String Ascii ZArith Bool Arith List.
From Stdlib Require Import Zfloor Permutation.
Import ListNotations.

Set Implicit Arguments.

(** ** Numerical primitives *)

Module Np.

Local Open Scope R_scope.

(** [np.log10] *)
Definition log10 (x : R) : R := ln x / ln 10.

(** A two-dimensional [ndarray]: its shape and its entries.  Elementwise
    NumPy operations act on [at_] pointwise and keep the shape. *)
Record ndarray (T : Type) : Type := mk_ndarray {
  nrows : nat;
  ncols : nat;
  at_ : nat -> nat -> T
}.

(** a one-dimensional array *)
Record vector (T : Type) : Type := mk_vector {
  len : nat;
  get : nat -> T
}.

(** [np.arange(start, stop, step)] for a positive [step]:
    [ceil((stop - start) / step)] samples [start + k * step]. *)
Definition arange (start stop step : R) : vector R :=
  {| len := Z.to_nat (Zceil ((stop - start) / step));
     get := fun k => start + INR k * step |}.

(** [np.meshgrid(x, y)]: [X[i][j] = x[j]] and [Y[i][j] = y[i]], both of
    shape [(len y, len x)]. *)
Definition meshgrid (x y : vector R) : ndarray R * ndarray R :=
  ({| nrows := len y; ncols := len x; at_ := fun _ j => get x j |},
   {| nrows := len y; ncols := len x; at_ := fun i _ => get y i |}).

(** [np.zeros_like(a)] and [np.full_like(a, v)] *)
Definition full_like {T U : Type} (a : ndarray T) (v : U) : ndarray U :=
  {| nrows := nrows a; ncols := ncols a; at_ := fun _ _ => v |}.

Definition zeros_like {T : Type} (a : ndarray T) : ndarray R :=
  full_like a 0.

(** an elementwise operation on one, two or three arrays (the shape is
    the first operand's: the code only combines arrays of one shape) *)
Definition map1 {A B : Type} (f : A -> B) (a : ndarray A) : ndarray B :=
  {| nrows := nrows a; ncols := ncols a;
     at_ := fun i j => f (at_ a i j) |}.

Definition map2 {A B C : Type} (f : A -> B -> C)
    (a : ndarray A) (b : ndarray B) : ndarray C :=
  {| nrows := nrows a; ncols := ncols a;
     at_ := fun i j => f (at_ a i j) (at_ b i j) |}.

Definition map3 {A B C D : Type} (f : A -> B -> C -> D)
    (a : ndarray A) (b : ndarray B) (c : ndarray C) : ndarray D :=
  {| nrows := nrows a; ncols := ncols a;
     at_ := fun i j => f (at_ a i j) (at_ b i j) (at_ c i j) |}.

(** [a > b] on floats, as a boolean *)
Definition gt (a b : R) : bool := if Rlt_dec b a then true else false.

(** [a <= b] on floats, as a boolean *)
Definition le (a b : R) : bool := if Rle_dec a b then true else false.

(** [np.where(cond, a, b)] with array operands, and with a scalar [a] *)
Definition where_ {T : Type} (c : ndarray bool) (a b : ndarray T)
    : ndarray T :=
  map3 (fun (ci : bool) x y => if ci then x else y) c a b.

Definition where_scalar {T : Type} (c : ndarray bool) (a : T)
    (b : ndarray T) : ndarray T :=
  map2 (fun (ci : bool) y => if ci then a else y) c b.

(** [np.where(cond, a, b)] with two scalars *)
Definition where_scalars {T : Type} (c : ndarray bool) (a b : T)
    : ndarray T :=
  map1 (fun ci : bool => if ci then a else b) c.

(** column-wise [np.min(_, axis=0)] and [np.max(_, axis=0)] of an
    [n x 2] array given by its rows; NumPy raises [ValueError] on a
    zero-size array, which is [None] here. *)
Fixpoint reduce_axis0 (op : R -> R -> R) (rows : list (R * R))
    : option (R * R) :=
  match rows with
  | [] => None
  | (x, y) :: rest =>
      match reduce_axis0 op rest with
      | None => Some (x, y)
      | Some (mx, my) => Some (op x mx, op y my)
      end
  end.

Definition min_axis0 := reduce_axis0 Rmin.
Definition max_axis0 := reduce_axis0 Rmax.

(** [np.sum] of a boolean array: the number of [True] entries *)
Definition count_true (a : ndarray bool) : nat :=
  fold_right
    (fun i acc =>
       fold_right
         (fun j acc' => if at_ a i j then S acc' else acc')
         acc (seq 0 (ncols a)))
    O (seq 0 (nrows a)).

(** [a.size] *)
Definition size {T : Type} (a : ndarray T) : nat := (nrows a * ncols a)%nat.

(** the entries of an array in row-major order, as the reductions over a
    whole array read them *)
Definition flatten {T : Type} (a : ndarray T) : list T :=
  flat_map (fun i => map (fun j => at_ a i j) (seq 0 (ncols a)))
    (seq 0 (nrows a)).

(** [np.min] and [np.max] of the entries; NumPy raises [ValueError] on a
    zero-size array, which is [None] here *)
Definition amin (cells : list R) : option R :=
  match cells with
  | [] => None
  | x :: rest => Some (fold_left Rmin rest x)
  end.

Definition amax (cells : list R) : option R :=
  match cells with
  | [] => None
  | x :: rest => Some (fold_left Rmax rest x)
  end.

(** [np.mean] of the entries *)
Definition mean (cells : list R) : R :=
  fold_left Rplus cells 0 / INR (length cells).

(** the entries in increasing order *)
Fixpoint insert_sorted (x : R) (l : list R) : list R :=
  match l with
  | [] => [x]
  | y :: rest =>
      if le x y then x :: l else y :: insert_sorted x rest
  end.

Definition sort (l : list R) : list R := fold_right insert_sorted [] l.

(** [np.median] of the entries: the middle one, or the mean of the two
    middle ones *)
Definition median (cells : list R) : R :=
  let sorted := sort cells in
  let n := length cells in
  if Nat.even n
  then (nth (n / 2 - 1) sorted 0 + nth (n / 2) sorted 0) / 2
  else nth (n / 2) sorted 0.

End Np.

(** ** Python values and effects *)

Module Py.

(** the exceptions the modelled code can raise *)
Inductive exn : Type :=
| ValueError
| FileNotFoundError.

(** the result of evaluating an expression or a call *)
Inductive outcome (A : Type) : Type :=
| Return (a : A)
| Raise (e : exn).

Arguments Return {A} a.
Arguments Raise {A} e.

(** A printed or written line: the literal text of the f-string, with
    [{}] where a field stands, and the values of its fields.  (The
    pictographs that open many of the source's messages are left out.) *)
Inductive field : Type :=
| FStr (s : string)
| FInt (n : Z)
| FFloat (x : R)
| FRow (row : list string)
| FExn (e : exn).

Record line : Type := mk_line {
  text : string;
  fields : list field
}.

(** A file present before the run: its text, and the rows that
    [csv.reader] yields from it. *)
Record file : Type := mk_file {
  csv_rows : list (list string);
  content : string
}.

(** the files present before the run, by path *)
Definition filesystem : Type := string -> option file.

(** What a run has done so far: the lines printed, the directories made
    and the files written, each in order. *)
Record world : Type := mk_world {
  stdout : list line;
  dirs : list string;
  written : list (string * list line)
}.

Definition empty_world : world :=
  {| stdout := []; dirs := []; written := [] |}.

(** a computation that acts on the world and returns or raises *)
Definition M (A : Type) : Type := world -> outcome A * world.

Definition ret {A : Type} (a : A) : M A := fun w => (Return a, w).

Definition bind {A B : Type} (c : M A) (k : A -> M B) : M B :=
  fun w =>
    match c w with
    | (Return a, w') => k a w'
    | (Raise e, w') => (Raise e, w')
    end.

Definition raise {A : Type} (e : exn) : M A := fun w => (Raise e, w).

(** a call of a function that prints nothing kept here: its outcome, in
    the world as it is *)
Definition of_outcome {A : Type} (o : outcome A) : M A := fun w => (o, w).

(** [try: c  except <handled> as e: handler e] *)
Definition try_except {A : Type} (c : M A) (handled : exn -> bool)
    (handler : exn -> M A) : M A :=
  fun w =>
    match c w with
    | (Return a, w') => (Return a, w')
    | (Raise e, w') =>
        if handled e then handler e w' else (Raise e, w')
    end.

(** the world after one more printed line *)
Definition say (w : world) (l : line) : world :=
  {| stdout := stdout w ++ [l]; dirs := dirs w; written := written w |}.

(** [print(f"...")] *)
Definition print (text : string) (fields : list field) : M unit :=
  fun w => (Return tt, say w (mk_line text fields)).

(** [os.makedirs(path, exist_ok=True)] *)
Definition makedirs (path : string) : M unit :=
  fun w =>
    (Return tt,
     {| stdout := stdout w; dirs := dirs w ++ [path];
        written := written w |}).

(** [with open(path, 'w') as f: f.write(...) ...] *)
Definition write_file (path : string) (lines : list line) : M unit :=
  fun w =>
    (Return tt,
     {| stdout := stdout w; dirs := dirs w;
        written := written w ++ [(path, lines)] |}).

(** [with open(path, 'w') as f: ...] where no [os.makedirs] comes first:
    [FileNotFoundError] unless the directory [dir] of the path is the
    current one (the empty name), was there before the run, or has been
    made during it *)
Definition write_file_in (dir_exists : string -> bool) (dir path : string)
    (lines : list line) : M unit :=
  fun w =>
    if String.eqb dir EmptyString || dir_exists dir
       || existsb (String.eqb dir) (dirs w)
    then write_file path lines w
    else (Raise FileNotFoundError, w).

(** two worlds with the same directories and files *)
Definition same_files (w w' : world) : Prop :=
  dirs w' = dirs w /\ written w' = written w.

(** the condition under which [write_file_in] writes *)
Definition dir_ready (dir_exists : string -> bool) (dir : string)
    (w : world) : bool :=
  String.eqb dir EmptyString || dir_exists dir
  || existsb (String.eqb dir) (dirs w).

(** [os.path.exists(path)], asked of the files present before the run *)
Definition path_exists (fs : filesystem) (path : string) : bool :=
  match fs path with
  | Some _ => true
  | None => false
  end.

(** [csv.reader(open(path, "r"))]: the rows of the file, or
    [FileNotFoundError] *)
Definition open_csv (fs : filesystem) (path : string)
    : M (list (list string)) :=
  match fs path with
  | Some f => ret (csv_rows f)
  | None => raise FileNotFoundError
  end.

(** [open(path, 'r').read()] *)
Definition read_text (fs : filesystem) (path : string) : M string :=
  match fs path with
  | Some f => ret (content f)
  | None => raise FileNotFoundError
  end.

(** [float(s)], given the parser: [ValueError] where it has no value *)
Definition to_float (float : string -> option R) (s : string) : M R :=
  match float s with
  | Some x => ret x
  | None => raise ValueError
  end.

(** [os.path.join(a, b)] for a relative [b] *)
Definition path_join (a b : string) : string :=
  if String.eqb a EmptyString then b
  else if String.eqb
            (substring (String.length a - 1) 1 a) (String "/" EmptyString)
       then String.append a b
       else String.append a (String "/" b).

(** ** [str.strip()] on ASCII text

    the blanks Python strips among the ASCII characters *)

Definition is_space (c : ascii) : bool :=
  let n := nat_of_ascii c in
  ((9 <=? n) && (n <=? 13) || (28 <=? n) && (n <=? 32))%nat.

Fixpoint lstrip (s : string) : string :=
  match s with
  | EmptyString => EmptyString
  | String c rest => if is_space c then lstrip rest else s
  end.

Fixpoint reverse (s : string) (acc : string) : string :=
  match s with
  | EmptyString => acc
  | String c rest => reverse rest (String c acc)
  end.

Definition strip_ascii (s : string) : string :=
  lstrip (reverse (lstrip (reverse s EmptyString)) EmptyString).

(** ** A parser for plain decimal literals

    [float()] on the strings [digits], [digits.digits], [digits.] and
    [.digits] with an optional sign.  Python's [float] accepts more
    (exponents, surrounding blanks, [inf], [nan], underscores): this
    instance serves the sample inputs, whose fields are plain decimal
    literals or contain a letter that no float literal has. *)

Definition digit (c : ascii) : option Z :=
  let n := nat_of_ascii c in
  if ((48 <=? n) && (n <=? 57))%nat then Some (Z.of_nat (n - 48))
  else None.

(** the value and the number of the digits of [s], read after [acc] *)
Fixpoint digits (s : string) (acc : Z) (count : nat) : option (Z * nat) :=
  match s with
  | EmptyString => Some (acc, count)
  | String c rest =>
      match digit c with
      | Some v => digits rest (acc * 10 + v) (S count)
      | None => None
      end
  end.

(** the text before and after the first [.] *)
Fixpoint split_point (s : string) : string * option string :=
  match s with
  | EmptyString => (EmptyString, None)
  | String c rest =>
      if Ascii.eqb c "."%char then (EmptyString, Some rest)
      else let '(a, b) := split_point rest in (String c a, b)
  end.

Definition unsigned_decimal (s : string) : option R :=
  let '(whole, frac) := split_point s in
  match digits whole 0 0 with
  | None => None
  | Some (w, nw) =>
      match frac with
      | None =>
          if (nw =? 0)%nat then None else Some (IZR w)
      | Some f =>
          match digits f 0 0 with
          | None => None
          | Some (fv, nf) =>
              if ((nw =? 0) && (nf =? 0))%nat then None
              else Some (IZR w + IZR fv / IZR (10 ^ Z.of_nat nf))%R
          end
      end
  end.

Definition float_decimal (s : string) : option R :=
  match s with
  | String "-" rest => option_map Ropp (unsigned_decimal rest)
  | String "+" rest => unsigned_decimal rest
  | _ => unsigned_decimal s
  end.

End Py.

Declare Scope py_scope.
Delimit Scope py_scope with py.
Notation "x <- c ;; k" := (Py.bind c (fun x => k))
  (at level 61, c at next level, right associativity) : py_scope.
Notation "c ;;; k" := (Py.bind c (fun _ => k))
  (at level 61, right associativity) : py_scope.

(** ** simple_demo.py *)

Module SimpleDemo.

Import Py.
Local Open Scope string_scope.
Local Open Scope list_scope.
Local Open Scope py_scope.

(** a loaded transmitter: the tuple [(name, [x, y, z])] *)
Definition transmitter : Type := string * (R * R * R).

Section Script.

Variable float : string -> option R.
Variable fs : filesystem.

(** the body of [for row_num, row in enumerate(csv_reader, 1)] *)
Definition load_row (row_num : Z) (row : list string)
    (transmitters : list transmitter) : M (list transmitter) :=
  if (4 <=? length row)%nat then
    let name := nth 0 row "" in
    try_except
      (x <- to_float float (nth 1 row "") ;;
       y <- to_float float (nth 2 row "") ;;
       z <- to_float float (nth 3 row "") ;;
       let transmitters := transmitters ++ [(name, (x, y, z))] in
       print "  {}: ({:.1f}, {:.1f}, {:.1f})"
         [FStr name; FFloat x; FFloat y; FFloat z] ;;;
       ret transmitters)
      (fun e => match e with ValueError => true | _ => false end)
      (fun e =>
         print "Warning: Could not parse row {}: {} - {}"
           [FInt row_num; FRow row; FExn e] ;;;
         ret transmitters)
  else
    print "Warning: Invalid row {}: {}" [FInt row_num; FRow row] ;;;
    ret transmitters.

Fixpoint load_rows (rows : list (list string)) (row_num : Z)
    (transmitters : list transmitter) : M (list transmitter) :=
  match rows with
  | [] => ret transmitters
  | row :: rest =>
      transmitters <- load_row row_num row transmitters ;;
      load_rows rest (row_num + 1) transmitters
  end.

(** [load_transmitters(filename)] *)
Definition load_transmitters (filename : string)
    : M (list transmitter) :=
  print "Loading AP coordinates from: {}" [FStr filename] ;;;
  rows <- open_csv fs filename ;;
  transmitters <- load_rows rows 1 [] ;;
  print "Loaded {} AP positions"
    [FInt (Z.of_nat (length transmitters))] ;;;
  ret transmitters.

(** [create_summary_report(transmitters, output_dir, source_file)]; of
    the text it writes, the lines that depend on its arguments *)
Definition create_summary_report (transmitters : list transmitter)
    (output_dir source_file : string) : M string :=
  makedirs output_dir ;;;
  let report_file := path_join output_dir "ap_summary.txt" in
  write_file report_file
    ([mk_line "Source file: {}" [FStr source_file];
      mk_line "Number of APs: {}"
        [FInt (Z.of_nat (length transmitters))]]
     ++ map (fun t : transmitter =>
               let '(name, (x, y, z)) := t in
               mk_line "  {}: ({:.1f}, {:.1f}, {:.1f})"
                 [FStr name; FFloat x; FFloat y; FFloat z])
          transmitters) ;;;
  print "Summary report saved to: {}" [FStr report_file] ;;;
  ret report_file.

(** [main()], given [sys.argv]; its value is the exit code.  Of the
    lines it prints, the error messages and the result lines are
    kept. *)
Definition main (argv : list string) : M Z :=
  if negb (length argv =? 3)%nat then
    print "Usage: python simple_demo.py <ap_file.csv> <output_dir>" [] ;;;
    ret 1%Z
  else
    let ap_file := nth 1 argv "" in
    let output_dir := nth 2 argv "" in
    if negb (path_exists fs ap_file) then
      print "Error: AP file not found: {}" [FStr ap_file] ;;;
      ret 1%Z
    else
      r <- try_except
             (transmitters <- load_transmitters ap_file ;;
              match transmitters with
              | [] =>
                  print "Error: No valid AP coordinates found in file"
                    [] ;;;
                  ret (inl 1%Z)
              | _ :: _ => ret (inr transmitters)
              end)
             (fun _ => true)
             (fun e =>
                print "Error loading AP coordinates: {}" [FExn e] ;;;
                ret (inl 1%Z)) ;;
      match r with
      | inl code => ret code
      | inr transmitters =>
          report_file <-
            create_summary_report transmitters output_dir ap_file ;;
          print "Loaded {} AP positions"
            [FInt (Z.of_nat (length transmitters))] ;;;
          print "Summary report created: {}" [FStr report_file] ;;;
          ret 0%Z
      end.

End Script.

End SimpleDemo.

(** ** demo_lightweight.py *)

Module DemoLightweight.

Import Py.
Local Open Scope string_scope.
Local Open Scope list_scope.
Local Open Scope py_scope.

(** the dictionary built for one access point *)
Record ap : Type := mk_ap {
  name : string;
  position : R * R * R;
  frequency : R;
  power : R
}.

(** the dictionary [analyze_building_scene] returns *)
Record building_info : Type := mk_building_info {
  file : string;
  size_bytes : nat;
  shapes : list string;
  materials : list string;
  valid_mitsuba : bool
}.

(** one entry of [results['coverage_analysis']] *)
Record analysis : Type := mk_analysis {
  an_position : R * R * R;
  estimated_coverage_radius_m : R;
  estimated_coverage_area_m2 : R;
  signal_frequency_ghz : R;
  transmit_power_dbm : R
}.

(** the dictionary [simulate_coverage_basic] returns *)
Record results : Type := mk_results {
  building_scene : string;
  ap_count : nat;
  res_aps : list ap;
  coverage_analysis : list (string * analysis);
  total_estimated_coverage_m2 : R
}.

(** [sub in s] *)
Fixpoint contains (sub s : string) : bool :=
  prefix sub s
  || match s with
     | EmptyString => false
     | String _ rest => contains sub rest
     end.

(** [s.count(sub)] for a non-empty [sub]: the occurrences that do not
    overlap, from the left ([skip] characters of the last one remain) *)
Fixpoint count_from (sub s : string) (skip : nat) : nat :=
  match s with
  | EmptyString => 0
  | String _ rest =>
      match skip with
      | S k => count_from sub rest k
      | O =>
          if prefix sub s
          then S (count_from sub rest (String.length sub - 1))
          else count_from sub rest 0
      end
  end.

(** [s.lower()] on the ASCII letters *)
Definition lower_char (c : ascii) : ascii :=
  let n := nat_of_ascii c in
  if ((65 <=? n) && (n <=? 90))%nat then ascii_of_nat (n + 32) else c.

Fixpoint lower (s : string) : string :=
  match s with
  | EmptyString => EmptyString
  | String c rest => String (lower_char c) (lower rest)
  end.

(** [d[key] = value] on a dictionary kept in insertion order *)
Fixpoint dict_set {V : Type} (d : list (string * V)) (key : string)
    (value : V) : list (string * V) :=
  match d with
  | [] => [(key, value)]
  | (k, v) :: rest =>
      if String.eqb k key then (k, value) :: rest
      else (k, v) :: dict_set rest key value
  end.

Section Script.

Variable float : string -> option R.
Variable fs : filesystem.

(** the body of [for row in reader] *)
Definition load_row (row : list string) (aps : list ap) : M (list ap) :=
  if (4 <=? length row)%nat then
    let name := nth 0 row "" in
    x <- to_float float (nth 1 row "") ;;
    y <- to_float float (nth 2 row "") ;;
    z <- to_float float (nth 3 row "") ;;
    let aps :=
      aps ++ [{| name := name; position := (x, y, z);
                 frequency := 2.4e9; power := 20.0 |}] in
    print "  {}: ({:.1f}, {:.1f}, {:.1f})"
      [FStr name; FFloat x; FFloat y; FFloat z] ;;;
    ret aps
  else ret aps.

Fixpoint load_rows (rows : list (list string)) (aps : list ap)
    : M (list ap) :=
  match rows with
  | [] => ret aps
  | row :: rest => aps <- load_row row aps ;; load_rows rest aps
  end.

(** [load_ap_coordinates(csv_file)] *)
Definition load_ap_coordinates (csv_file : string) : M (list ap) :=
  print "Loading AP coordinates from: {}" [FStr csv_file] ;;;
  rows <- open_csv fs csv_file ;;
  aps <- load_rows rows [] ;;
  print "Loaded {} AP positions" [FInt (Z.of_nat (length aps))] ;;;
  ret aps.

(** [analyze_building_scene(xml_file)] *)
Definition analyze_building_scene (xml_file : string)
    : M building_info :=
  print "Analyzing building scene: {}" [FStr xml_file] ;;;
  content <- read_text fs xml_file ;;
  let valid := contains "<scene" content && contains "version=" content in
  (if valid then print "  Valid Mitsuba scene format" [] else ret tt) ;;;
  let shape_count := count_from "<shape" content 0 in
  print "  Estimated {} building elements"
    [FInt (Z.of_nat shape_count)] ;;;
  let low := lower content in
  let materials :=
    (if contains "concrete" low then ["concrete"] else [])
    ++ (if contains "metal" low then ["metal"] else [])
    ++ (if contains "marble" low then ["marble"] else [])
    ++ (if contains "diffuse" low then ["diffuse"] else []) in
  (match materials with
   | [] => ret tt
   | _ :: _ => print "  Materials: {}" (map FStr materials)
   end) ;;;
  ret {| file := xml_file; size_bytes := String.length content;
         shapes := []; materials := materials;
         valid_mitsuba := valid |}.

(** the loop [for ap in aps] of [simulate_coverage_basic] *)
Fixpoint analyze_aps (aps : list ap)
    (coverage_analysis : list (string * analysis))
    : M (list (string * analysis)) :=
  match aps with
  | [] => ret coverage_analysis
  | a :: rest =>
      let coverage_radius := 30.0%R in
      let coverage_area := (3.14159 * coverage_radius ^ 2)%R in
      let coverage_analysis :=
        dict_set coverage_analysis (name a)
          {| an_position := position a;
             estimated_coverage_radius_m := coverage_radius;
             estimated_coverage_area_m2 := coverage_area;
             signal_frequency_ghz := (frequency a / 1e9)%R;
             transmit_power_dbm := power a |} in
      print "    {}: ~{}m range, ~{:.0f}m2 area"
        [FStr (name a); FFloat coverage_radius; FFloat coverage_area] ;;;
      analyze_aps rest coverage_analysis
  end.

(** [simulate_coverage_basic(aps, building_info, output_dir)]; of the
    two files it writes, the lines that depend on its arguments *)
Definition simulate_coverage_basic (aps : list ap)
    (info : building_info) (output_dir : string) : M results :=
  print "Running basic coverage simulation..." [] ;;;
  makedirs output_dir ;;;
  coverage_analysis <- analyze_aps aps [] ;;
  let total_coverage :=
    fold_left
      (fun acc (e : string * analysis) =>
         (acc + estimated_coverage_area_m2 (snd e))%R)
      coverage_analysis 0%R in
  let res :=
    {| building_scene := file info; ap_count := length aps;
       res_aps := aps; coverage_analysis := coverage_analysis;
       total_estimated_coverage_m2 := total_coverage |} in
  let results_file := path_join output_dir "simulation_results.json" in
  write_file results_file
    [mk_line "building_scene: {}" [FStr (file info)];
     mk_line "ap_count: {}" [FInt (Z.of_nat (length aps))];
     mk_line "total_estimated_coverage_m2: {}" [FFloat total_coverage]]
  ;;;
  let summary_file := path_join output_dir "coverage_summary.txt" in
  write_file summary_file
    ([mk_line "Building Scene: {}" [FStr (file info)];
      mk_line "AP Count: {}" [FInt (Z.of_nat (length aps))];
      mk_line "Total Estimated Coverage: {:.0f} m2"
        [FFloat total_coverage]]
     ++ map (fun e : string * analysis =>
               let '(x, y, z) := an_position (snd e) in
               mk_line "{}: ({:.1f}, {:.1f}, {:.1f}) -> ~{:.0f}m range"
                 [FStr (fst e); FFloat x; FFloat y; FFloat z;
                  FFloat (estimated_coverage_radius_m (snd e))])
          coverage_analysis) ;;;
  print "  Results saved to: {}" [FStr results_file] ;;;
  print "  Summary saved to: {}" [FStr summary_file] ;;;
  ret res.

(** one test case of [main]: the AP file, the scene file, the output
    directory *)
Definition test_case : Type := string * string * string.

Definition test_cases : list test_case :=
  [("../data/2f.csv", "./building_2f.xml", "./demo_2f_building");
   ("../data/3f.csv", "./simple_scene.xml", "./demo_3f_simple")].

(** [for i, test_case in enumerate(test_cases, 1)] *)
Fixpoint run_test_cases (cases : list test_case) (i : Z)
    (success_count : Z) : M Z :=
  match cases with
  | [] => ret success_count
  | (ap_file, scene_file, output_dir) :: rest =>
      if negb (path_exists fs ap_file) then
        print "AP file not found: {}" [FStr ap_file] ;;;
        run_test_cases rest (i + 1) success_count
      else if negb (path_exists fs scene_file) then
        print "Scene file not found: {}" [FStr scene_file] ;;;
        run_test_cases rest (i + 1) success_count
      else
        success_count <-
          try_except
            (aps <- load_ap_coordinates ap_file ;;
             info <- analyze_building_scene scene_file ;;
             _ <- simulate_coverage_basic aps info output_dir ;;
             print "Test case {} completed successfully!" [FInt i] ;;;
             ret (success_count + 1)%Z)
            (fun _ => true)
            (fun e =>
               print "Test case {} failed: {}" [FInt i; FExn e] ;;;
               ret success_count) ;;
        run_test_cases rest (i + 1) success_count
  end.

(** [main()]; of the lines it prints, those that report on a file, on a
    test case or on the final count are kept *)
Definition main : M bool :=
  success_count <- run_test_cases test_cases 1 0 ;;
  print "{}/{} test cases successful"
    [FInt success_count; FInt (Z.of_nat (length test_cases))] ;;;
  ret (success_count =? Z.of_nat (length test_cases))%Z.

(** [success = main(); exit(0 if success else 1)]: the exit code *)
Definition script : M Z :=
  success <- main ;;
  ret (if success then 0 else 1)%Z.

End Script.

End DemoLightweight.

(** ** ap_to_sionna_pipeline.py *)

Module ApToSionnaPipeline.

Import Py.
Local Open Scope string_scope.
Local Open Scope list_scope.

Section Script.

Variable float : string -> option R.
(** [str.strip()] *)
Variable strip : string -> string.
Variable fs : filesystem.

(** the body of [for row_num, row in enumerate(csv_reader, 1)]: the lists
    [transmitters] and [errors] after the row *)
Definition validate_row (row_num : Z) (row : list string)
    (state : list SimpleDemo.transmitter * list line)
    : list SimpleDemo.transmitter * list line :=
  let '(transmitters, errors) := state in
  if (length row <? 4)%nat then
    (transmitters,
     errors ++ [mk_line "Row {}: Insufficient columns (need name,x,y,z)"
                  [FInt row_num]])
  else
    let name := strip (nth 0 row "") in
    if String.eqb name "" then
      (transmitters,
       errors ++ [mk_line "Row {}: Empty AP name" [FInt row_num]])
    else
      match float (nth 1 row "") with
      | None =>
          (transmitters,
           errors ++ [mk_line "Row {}: Invalid coordinates - {}"
                        [FInt row_num; FExn ValueError]])
      | Some x =>
          match float (nth 2 row "") with
          | None =>
              (transmitters,
               errors ++ [mk_line "Row {}: Invalid coordinates - {}"
                            [FInt row_num; FExn ValueError]])
          | Some y =>
              match float (nth 3 row "") with
              | None =>
                  (transmitters,
                   errors ++ [mk_line "Row {}: Invalid coordinates - {}"
                                [FInt row_num; FExn ValueError]])
              | Some z => (transmitters ++ [(name, (x, y, z))], errors)
              end
          end
      end.

Fixpoint validate_rows (rows : list (list string)) (row_num : Z)
    (state : list SimpleDemo.transmitter * list line)
    : list SimpleDemo.transmitter * list line :=
  match rows with
  | [] => state
  | row :: rest =>
      validate_rows rest (row_num + 1) (validate_row row_num row state)
  end.

(** [validate_ap_coordinates(ap_file)]: the tuple
    [(is_valid, transmitters, errors)] *)
Definition validate_ap_coordinates (ap_file : string)
    : bool * list SimpleDemo.transmitter * list line :=
  match fs ap_file with
  | None => (false, [], [mk_line "File not found: {}" [FStr ap_file]])
  | Some f =>
      let '(transmitters, errors) :=
        validate_rows (csv_rows f) 1 ([], []) in
      let errors :=
        match transmitters with
        | [] => errors ++ [mk_line "No valid AP coordinates found" []]
        | _ :: _ => errors
        end in
      ((length errors =? 0)%nat, transmitters, errors)
  end.

End Script.

End ApToSionnaPipeline.

(** ** real_building_coverage.py *)

Module RealBuildingCoverage.

Local Open Scope R_scope.

(** [calculate_path_loss(distance, frequency, obstacles=0)] *)
Definition calculate_path_loss (distance frequency : R) (obstacles : Z)
    : R :=
  if Np.le distance 0 then 0
  else
    let c := 3e8 in
    let fspl_db :=
      20 * Np.log10 distance + 20 * Np.log10 frequency
      + 20 * Np.log10 (4 * PI / c) in
    let obstacle_loss := IZR (obstacles * 10) in
    let total_loss := fspl_db + obstacle_loss in
    total_loss.

(** the dictionary [load_ap_coordinates] builds for one access point *)
Record ap : Type := mk_ap {
  name : string;
  position : R * R * R;
  frequency : R;
  power_dbm : R;
  power_watts : R
}.

Section Loader.

Variable float : string -> option R.
Variable fs : Py.filesystem.

Local Open Scope string_scope.
Local Open Scope list_scope.
Local Open Scope py_scope.

(** the body of [for row in reader] *)
Definition load_row (row : list string) (aps : list ap)
    : Py.M (list ap) :=
  if (4 <=? length row)%nat then
    let name := nth 0 row "" in
    x <- Py.to_float float (nth 1 row "") ;;
    y <- Py.to_float float (nth 2 row "") ;;
    z <- Py.to_float float (nth 3 row "") ;;
    let aps :=
      aps ++ [{| name := name; position := (x, y, z);
                 frequency := 2.4e9; power_dbm := 20.0;
                 power_watts := 0.1 |}] in
    Py.print "  {}: ({:.1f}, {:.1f}, {:.1f}) @ {}dBm"
      [Py.FStr name; Py.FFloat x; Py.FFloat y; Py.FFloat z; Py.FInt 20]
    ;;; Py.ret aps
  else Py.ret aps.

Fixpoint load_rows (rows : list (list string)) (aps : list ap)
    : Py.M (list ap) :=
  match rows with
  | [] => Py.ret aps
  | row :: rest => aps <- load_row row aps ;; load_rows rest aps
  end.

(** [load_ap_coordinates(csv_file)] *)
Definition load_ap_coordinates (csv_file : string) : Py.M (list ap) :=
  Py.print "Loading AP coordinates from: {}" [Py.FStr csv_file] ;;;
  rows <- Py.open_csv fs csv_file ;;
  aps <- load_rows rows [] ;;
  Py.print "Loaded {} AP transmitters"
    [Py.FInt (Z.of_nat (length aps))] ;;;
  Py.ret aps.

End Loader.

(** the same access point at another position *)
Definition with_position (a : ap) (p : R * R * R) : ap :=
  {| name := name a; position := p; frequency := frequency a;
     power_dbm := power_dbm a; power_watts := power_watts a |}.

(** the dictionary [parse_building_layout] returns; the aggregator takes
    it and never reads it *)
Record building : Type := mk_building {
  materials : list (string * (string * Z));
  bounds : Z * Z * Z * Z
}.

(** the dictionary [simulate_coverage_grid] returns *)
Record coverage_data : Type := mk_coverage_data {
  X : Np.ndarray R;
  Y : Np.ndarray R;
  signal_strength : Np.ndarray R;
  best_ap : Np.ndarray Z;
  aps : list ap;
  coverage_percent : R;
  grid_resolution : R
}.

(** Lines 133-146 of [simulate_coverage_grid]: the received power of one
    access point over the whole grid. *)
Definition received_power_grid (X Y : Np.ndarray R) (a : ap)
    : Np.ndarray R :=
  let '(ap_x, ap_y, ap_z) := position a in
  let distances :=
    Np.map2
      (fun x y => sqrt ((x - ap_x) ^ 2 + (y - ap_y) ^ 2 + (ap_z - 1.5) ^ 2))
      X Y in
  let obstacles :=
    Np.where_scalars (Np.map1 (fun d => Np.gt d 15) distances) 1%Z 0%Z in
  let obstacles :=
    Np.where_scalar (Np.map1 (fun d => Np.gt d 30) distances) 2%Z
      obstacles in
  let path_loss :=
    Np.map2 (fun d o => calculate_path_loss d (frequency a) o)
      distances obstacles in
  let received_power := Np.map1 (fun pl => power_dbm a - pl) path_loss in
  received_power.

(** Lines 130-151: one iteration of the loop over [enumerate(aps)]. *)
Definition update_coverage (X Y : Np.ndarray R)
    (state : Np.ndarray R * Np.ndarray Z) (i : Z) (a : ap)
    : Np.ndarray R * Np.ndarray Z :=
  let '(signal_strength, best_ap) := state in
  let received_power := received_power_grid X Y a in
  let stronger_signal := Np.map2 Np.gt received_power signal_strength in
  let signal_strength :=
    Np.where_ stronger_signal received_power signal_strength in
  let best_ap := Np.where_scalar stronger_signal i best_ap in
  (signal_strength, best_ap).

(** [for i, ap in enumerate(aps)], counting from [i] *)
Fixpoint coverage_loop (X Y : Np.ndarray R) (i : Z) (aps : list ap)
    (state : Np.ndarray R * Np.ndarray Z)
    : Np.ndarray R * Np.ndarray Z :=
  match aps with
  | [] => state
  | a :: rest =>
      coverage_loop X Y (i + 1) rest (update_coverage X Y state i a)
  end.

(** [simulate_coverage_grid(aps, building, grid_resolution=0.5)].  The
    progress lines it prints are left out.  [np.arange] is modelled for a
    positive [grid_resolution] (every caller passes 0.5). *)
Definition simulate_coverage_grid (aps : list ap) (building : building)
    (grid_resolution : R) : Py.outcome coverage_data :=
  let all_positions :=
    map (fun a => let '(x, y, _) := position a in (x, y)) aps in
  match Np.min_axis0 all_positions, Np.max_axis0 all_positions with
  | Some (mn_x, mn_y), Some (mx_x, mx_y) =>
      let '(x_min, y_min) := (mn_x - 20, mn_y - 20) in
      let '(x_max, y_max) := (mx_x + 20, mx_y + 20) in
      let x_grid := Np.arange x_min x_max grid_resolution in
      let y_grid := Np.arange y_min y_max grid_resolution in
      let '(X, Y) := Np.meshgrid x_grid y_grid in
      let signal_strength := Np.zeros_like X in
      let best_ap := Np.full_like X (-1)%Z in
      let '(signal_strength, best_ap) :=
        coverage_loop X Y 0 aps (signal_strength, best_ap) in
      let good_coverage :=
        Np.count_true (Np.map1 (fun s => Np.gt s (-70)) signal_strength) in
      let total_points := Np.size signal_strength in
      let coverage_percent :=
        INR good_coverage / INR total_points * 100 in
      Py.Return
        {| X := X; Y := Y;
           signal_strength := signal_strength;
           best_ap := best_ap;
           aps := aps;
           coverage_percent := coverage_percent;
           grid_resolution := grid_resolution |}
  | _, _ => Py.Raise Py.ValueError
  end.

(** Lines 252-256 of [create_coverage_visualizations]: the received
    power of one access point as its own panel plots it. *)
Definition individual_received_power (X Y : Np.ndarray R) (a : ap)
    : Np.ndarray R :=
  let '(ap_x, ap_y, ap_z) := position a in
  let distances :=
    Np.map2
      (fun x y => sqrt ((x - ap_x) ^ 2 + (y - ap_y) ^ 2 + (ap_z - 1.5) ^ 2))
      X Y in
  let obstacles :=
    Np.where_scalars (Np.map1 (fun d => Np.gt d 15) distances) 1%Z 0%Z in
  let path_loss :=
    Np.map2 (fun d o => calculate_path_loss d (frequency a) o)
      distances obstacles in
  let received_power := Np.map1 (fun pl => power_dbm a - pl) path_loss in
  received_power.

(** the dictionary [statistics] of [generate_coverage_report] *)
Record statistics : Type := mk_statistics {
  total_area_points : nat;
  excellent_coverage_percent : R;
  good_coverage_percent : R;
  fair_coverage_percent : R;
  poor_coverage_percent : R;
  overall_usable_coverage_percent : R;
  min_dbm : R;
  max_dbm : R;
  mean_dbm : R;
  median_dbm : R
}.

Section Report.

(** the directories present before the run *)
Variable dir_exists : string -> bool.

Local Open Scope string_scope.
Local Open Scope list_scope.
Local Open Scope py_scope.

(** [generate_coverage_report(coverage_data, building, output_dir)]; of
    the two files it writes, the lines that depend on its arguments *)
Definition generate_coverage_report (coverage_data : coverage_data)
    (building : building) (output_dir : string) : Py.M statistics :=
  let report_file :=
    Py.path_join output_dir "coverage_analysis_report.txt" in
  let json_file := Py.path_join output_dir "coverage_data.json" in
  let signal_strength := signal_strength coverage_data in
  let aps := aps coverage_data in
  let excellent_coverage :=
    Np.count_true (Np.map1 (fun s => Np.gt s (-50)) signal_strength) in
  let good_coverage :=
    Np.count_true
      (Np.map1 (fun s => Np.gt s (-70) && Np.le s (-50)) signal_strength) in
  let fair_coverage :=
    Np.count_true
      (Np.map1 (fun s => Np.gt s (-85) && Np.le s (-70)) signal_strength) in
  let poor_coverage :=
    Np.count_true (Np.map1 (fun s => Np.le s (-85)) signal_strength) in
  let total_points := Np.size signal_strength in
  let cells := Np.flatten signal_strength in
  match Np.amin cells, Np.amax cells with
  | Some mn, Some mx =>
      let statistics :=
        {| total_area_points := total_points;
           excellent_coverage_percent :=
             INR excellent_coverage / INR total_points * 100;
           good_coverage_percent :=
             INR good_coverage / INR total_points * 100;
           fair_coverage_percent :=
             INR fair_coverage / INR total_points * 100;
           poor_coverage_percent :=
             INR poor_coverage / INR total_points * 100;
           overall_usable_coverage_percent :=
             INR (excellent_coverage + good_coverage) / INR total_points
             * 100;
           min_dbm := mn;
           max_dbm := mx;
           mean_dbm := Np.mean cells;
           median_dbm := Np.median cells |} in
      Py.write_file_in dir_exists output_dir report_file
        ([Py.mk_line "  AP Count: {}" [Py.FInt (Z.of_nat (length aps))];
          Py.mk_line "  Grid Resolution: {} meters"
            [Py.FFloat (grid_resolution coverage_data)]]
         ++ map (fun a : ap =>
                   let '(x, y, z) := position a in
                   Py.mk_line "  {}: ({:.1f}, {:.1f}, {:.1f})"
                     [Py.FStr (name a); Py.FFloat x; Py.FFloat y;
                      Py.FFloat z])
              aps
         ++ [Py.mk_line "  Excellent (> -50 dBm): {:.1f}%"
               [Py.FFloat (excellent_coverage_percent statistics)];
             Py.mk_line "  Good (-50 to -70 dBm): {:.1f}%"
               [Py.FFloat (good_coverage_percent statistics)];
             Py.mk_line "  Fair (-70 to -85 dBm): {:.1f}%"
               [Py.FFloat (fair_coverage_percent statistics)];
             Py.mk_line "  Poor (< -85 dBm): {:.1f}%"
               [Py.FFloat (poor_coverage_percent statistics)];
             Py.mk_line "  Usable Coverage: {:.1f}%"
               [Py.FFloat (overall_usable_coverage_percent statistics)];
             Py.mk_line "  Signal Range: {:.1f} to {:.1f} dBm"
               [Py.FFloat mn; Py.FFloat mx];
             Py.mk_line "  Average Signal: {:.1f} dBm"
               [Py.FFloat (mean_dbm statistics)]]) ;;;
      Py.write_file_in dir_exists output_dir json_file
        [Py.mk_line "ap_count: {}" [Py.FInt (Z.of_nat (length aps))];
         Py.mk_line "grid_resolution_m: {}"
           [Py.FFloat (grid_resolution coverage_data)];
         Py.mk_line "total_area_points: {}"
           [Py.FInt (Z.of_nat total_points)];
         Py.mk_line "grid_shape: [{}, {}]"
           [Py.FInt (Z.of_nat (Np.nrows (X coverage_data)));
            Py.FInt (Z.of_nat (Np.ncols (X coverage_data)))]] ;;;
      Py.print "Analysis report saved: {}" [Py.FStr report_file] ;;;
      Py.print "Coverage data saved: {}" [Py.FStr json_file] ;;;
      Py.ret statistics
  | _, _ => Py.raise Py.ValueError
  end.

End Report.

(** a [shape] element of the scene: its [id] attribute, when it has one,
    and whether a [bsdf] element lies below it *)
Record shape : Type := mk_shape {
  shape_id : option string;
  has_bsdf : bool
}.

(** the entry of [building['materials']] for a shape: its type and its
    attenuation in dB *)
Definition classify (shape_id : string) : string * Z :=
  let low := DemoLightweight.lower shape_id in
  if (DemoLightweight.contains "concrete" low
      || DemoLightweight.contains "wall" low)%bool
  then ("wall"%string, 15%Z)
  else if DemoLightweight.contains "metal" low
  then ("metal"%string, 25%Z)
  else ("general"%string, 5%Z).

(** [shape.get('id', 'unknown')] *)
Definition get_id (shape : shape) : string :=
  match shape_id shape with
  | Some i => i
  | None => "unknown"%string
  end.

(** [for shape in shapes] of [parse_building_layout] *)
Fixpoint parse_shapes (shapes : list shape)
    (materials : list (string * (string * Z)))
    : list (string * (string * Z)) :=
  match shapes with
  | [] => materials
  | shape :: rest =>
      let shape_id := get_id shape in
      parse_shapes rest
        (if has_bsdf shape
         then DemoLightweight.dict_set materials shape_id (classify shape_id)
         else materials)
  end.

Section Main.

Variable float : string -> option R.
Variable fs : Py.filesystem.
(** [ET.parse(xml_file).getroot().findall('.//shape')]: the shape
    elements of the document, in document order, or the text of the
    exception [ET.parse] raises *)
Variable shapes_of : string -> list shape + string.

Local Open Scope string_scope.
Local Open Scope list_scope.
Local Open Scope py_scope.

(** [parse_building_layout(xml_file)] *)
Definition parse_building_layout (xml_file : string) : Py.M building :=
  Py.print "Parsing building layout: {}" [Py.FStr xml_file] ;;;
  match shapes_of xml_file with
  | inl shapes =>
      Py.print "  Found {} building elements"
        [Py.FInt (Z.of_nat (length shapes))] ;;;
      let materials := parse_shapes shapes [] in
      Py.print "  Building materials: {} elements"
        [Py.FInt (Z.of_nat (length materials))] ;;;
      Py.print "  Typical wall attenuation: 15 dB" [] ;;;
      Py.print "  Metal obstacle attenuation: 25 dB" [] ;;;
      Py.ret {| materials := materials; bounds := (0, 100, 0, 100)%Z |}
  | inr e =>
      Py.print "  Could not parse XML details: {}" [Py.FStr e] ;;;
      Py.print "  Using default building parameters" [] ;;;
      Py.ret {| materials := []; bounds := (0, 100, 0, 100)%Z |}
  end.

(** Lines 409-413 of [main]: the first three calls of a scenario, which
    load the access points, parse the building and run the simulation *)
Definition load_and_simulate (ap_file building_file : string)
    : Py.M coverage_data :=
  aps <- load_ap_coordinates float fs ap_file ;;
  building <- parse_building_layout building_file ;;
  Py.of_outcome (simulate_coverage_grid aps building 0.5).

End Main.

End RealBuildingCoverage.

(** ** The specification's vocabulary *)

Module Spec.

Local Open Scope R_scope.

(** the wall count as the specification words it: none at or below the
    near threshold, one above it, two beyond the farther one *)
Definition near_threshold : R := 15.
Definition far_threshold : R := 30.

Definition wall_count (d : R) : Z :=
  if Np.le d near_threshold then 0%Z
  else if Np.le d far_threshold then 1%Z
  else 2%Z.

(** the attenuation of one wall, in dB *)
Definition wall_attenuation : R := 10.

(** free-space path loss by the Friis relation *)
Definition friis (d frequency : R) : R :=
  20 * Np.log10 d + 20 * Np.log10 frequency
  + 20 * Np.log10 (4 * PI / 3e8).

(** the distance from an access point at [(ap_x, ap_y, ap_z)] to the
    query point [(x, y)] at the receiver height of 1.5 m *)
Definition distance (p : R * R * R) (x y : R) : R :=
  let '(ap_x, ap_y, ap_z) := p in
  sqrt ((x - ap_x) ^ 2 + (y - ap_y) ^ 2 + (ap_z - 1.5) ^ 2).

(** a valid row: at least the four fields [name,x,y,z], with numeric
    [x], [y] and [z]; its transmitter *)
Definition parse_row (float : string -> option R) (row : list string)
    : option (string * (R * R * R)) :=
  match row with
  | name :: sx :: sy :: sz :: _ =>
      match float sx, float sy, float sz with
      | Some x, Some y, Some z => Some (name, (x, y, z))
      | _, _, _ => None
      end
  | _ => None
  end.

(** the transmitters of the valid rows, in the order of the rows *)
Fixpoint valid_transmitters (float : string -> option R)
    (rows : list (list string)) : list (string * (R * R * R)) :=
  match rows with
  | [] => []
  | row :: rest =>
      match parse_row float row with
      | Some t => t :: valid_transmitters float rest
      | None => valid_transmitters float rest
      end
  end.

(** the rows that are not valid *)
Definition malformed (float : string -> option R) (row : list string)
    : bool :=
  match parse_row float row with
  | Some _ => false
  | None => true
  end.

Fixpoint count_malformed (float : string -> option R)
    (rows : list (list string)) : nat :=
  match rows with
  | [] => 0
  | row :: rest =>
      (if malformed float row then 1 else 0) + count_malformed float rest
  end.

(** a row the loader must skip and report: fewer than four fields, a
    coordinate that is not a number, or an empty name *)
Definition rejected (float : string -> option R) (strip : string -> string)
    (row : list string) : bool :=
  match parse_row float row with
  | Some (name, _) => String.eqb (strip name) EmptyString
  | None => true
  end.

Fixpoint count_rejected (float : string -> option R)
    (strip : string -> string) (rows : list (list string)) : nat :=
  match rows with
  | [] => 0
  | row :: rest =>
      (if rejected float strip row then 1 else 0)
      + count_rejected float strip rest
  end.

(** the transmitters of the rows that are not rejected, in order, under
    their stripped names *)
Fixpoint accepted_transmitters (float : string -> option R)
    (strip : string -> string) (rows : list (list string))
    : list (string * (R * R * R)) :=
  match rows with
  | [] => []
  | row :: rest =>
      match parse_row float row with
      | Some (name, pos) =>
          if String.eqb (strip name) EmptyString
          then accepted_transmitters float strip rest
          else (strip name, pos) :: accepted_transmitters float strip rest
      | None => accepted_transmitters float strip rest
      end
  end.

(** a row on which a loader without [try] stops: four fields or more,
    one of the coordinates not a number *)
Definition aborts (float : string -> option R) (row : list string) : bool :=
  (4 <=? length row)%nat && malformed float row.



(** a diagnostic entry: a printed line that starts with [Warning] *)
Definition is_warning (l : Py.line) : bool :=
  prefix "Warning" (Py.text l).

Definition warnings (w : Py.world) : list Py.line :=
  filter is_warning (Py.stdout w).

(** the maximum of a non-empty list of estimates *)
Fixpoint max_over (l : list R) : option R :=
  match l with
  | [] => None
  | r :: rest =>
      match max_over rest with
      | None => Some r
      | Some m => Some (Rmax r m)
      end
  end.

(** the maximum of 0 dBm and a list of estimates *)
Definition max_with_floor (l : list R) : R := fold_right Rmax 0 l.

End Spec.

(** The per-transmitter estimates at the cell [(i, j)] of the grid
    [(X, Y)], in the order of the transmitter list. *)
Definition estimates_at (X Y : Np.ndarray R)
    (aps : list RealBuildingCoverage.ap) (i j : nat) : list R :=
  map (fun a => Np.at_ (RealBuildingCoverage.received_power_grid X Y a) i j)
    aps.

(** The loop of the aggregator seen from one cell: the running best value
    [s] and best index [b] after the estimates [ests], the first of which
    has index [k]. *)
Fixpoint cell_loop (ests : list R) (k : Z) (s : R) (b : Z) : R * Z :=
  match ests with
  | [] => (s, b)
  | r :: rest =>
      if Np.gt r s then cell_loop rest (k + 1) r k
      else cell_loop rest (k + 1) s b
  end.

(** ** Sample inputs *)

Module Sample.

Import RealBuildingCoverage.
Local Open Scope R_scope.
Local Open Scope string_scope.

(** the access point [load_ap_coordinates] builds from a row
    [name,x,y,z] *)
Definition loaded (name : string) (x y z : R) : ap :=
  {| name := name; position := (x, y, z);
     frequency := 2.4e9; power_dbm := 20.0; power_watts := 0.1 |}.

(** the dictionary [parse_building_layout] starts from *)
Definition default_building : building :=
  {| materials := []; bounds := (0, 100, 0, 100)%Z |}.

(** [AP_01,0,0,1.5]: an access point at the receiver height *)
Definition ap_origin : ap := loaded "AP_01" 0 0 1.5.

(** [AP_01,10,0,1.55] and [AP_02,10,0,11.5] *)
Definition ap_near : ap := loaded "AP_01" 10 0 1.55.
Definition ap_far : ap := loaded "AP_02" 10 0 11.5.

(** a file system with one CSV file (its text is not read by the
    loaders, which take the rows) *)
Definition single_file (path : string) (rows : list (list string))
    : Py.filesystem :=
  fun p =>
    if String.eqb p path then Some (Py.mk_file rows EmptyString)
    else None.

(** the row [,1.0,2.0,3.0]: numeric coordinates and an empty name *)
Definition rows_empty_name : list (list string) :=
  [[""; "1.0"; "2.0"; "3.0"]].

(** the row [AP_01,abc,2.0,3.0]: a coordinate that is not a number *)
Definition rows_non_numeric : list (list string) :=
  [["AP_01"; "abc"; "2.0"; "3.0"]].

(** the row [AP_01,1.0]: fewer than four fields *)
Definition rows_short : list (list string) :=
  [["AP_01"; "1.0"]].

(** a valid row followed by one with a coordinate that is not a number *)
Definition rows_valid_then_bad : list (list string) :=
  [["AP_01"; "1.0"; "2.0"; "3.0"]; ["AP_02"; "abc"; "2.0"; "3.0"]].

(** the four input files of [demo_lightweight.py], with no parseable row
    in either coordinate file *)
Definition fs_no_parseable_row : Py.filesystem :=
  fun p =>
    if String.eqb p "../data/2f.csv"
    then Some (Py.mk_file rows_short EmptyString)
    else if String.eqb p "../data/3f.csv"
    then Some (Py.mk_file [] EmptyString)
    else if String.eqb p "./building_2f.xml"
    then Some (Py.mk_file [] "<scene version='3.0.0'></scene>")
    else if String.eqb p "./simple_scene.xml"
    then Some (Py.mk_file [] "<scene version='3.0.0'></scene>")
    else None.

(** a one-cell grid at the point (10, 0) *)
Definition one_cell_X : Np.ndarray R := Np.mk_ndarray 1 1 (fun _ _ => 10).
Definition one_cell_Y : Np.ndarray R := Np.mk_ndarray 1 1 (fun _ _ => 0).

End Sample.

(** * Properties *)

Section PathLoss.

Import RealBuildingCoverage.
Local Open Scope R_scope.

Lemma ln_10_pos : 0 < ln 10.
Proof.
  rewrite <- ln_1. apply ln_increasing; lra.
Qed.

Lemma log10_1 : Np.log10 1 = 0.
Proof.
  unfold Np.log10. rewrite ln_1. unfold Rdiv. apply Rmult_0_l.
Qed.

Lemma log10_le (x y : R) : 0 < x -> x <= y -> Np.log10 x <= Np.log10 y.
Proof.
  intros Hx Hxy. unfold Np.log10.
  apply Rmult_le_compat_r.
  - left. apply Rinv_0_lt_compat, ln_10_pos.
  - destruct Hxy as [Hlt | ->].
    + left. now apply ln_increasing.
    + right. reflexivity.
Qed.

Lemma log10_lt (x y : R) : 0 < x -> x < y -> Np.log10 x < Np.log10 y.
Proof.
  intros Hx Hxy. unfold Np.log10.
  apply Rmult_lt_compat_r.
  - apply Rinv_0_lt_compat, ln_10_pos.
  - now apply ln_increasing.
Qed.

Lemma le_true (a b : R) : a <= b -> Np.le a b = true.
Proof. intros H. unfold Np.le. destruct (Rle_dec a b); [reflexivity | contradiction]. Qed.

Lemma le_false (a b : R) : b < a -> Np.le a b = false.
Proof. intros H. unfold Np.le. destruct (Rle_dec a b); [lra | reflexivity]. Qed.

(** the guard: no loss at a distance that is not positive *)
Lemma calculate_path_loss_guard (d f : R) (k : Z) :
  d <= 0 -> calculate_path_loss d f k = 0.
Proof.
  intros Hd. unfold calculate_path_loss. now rewrite le_true.
Qed.

(** C6: at distance exactly 0 the estimator returns the loss 0, whatever
    the frequency and the obstacle count: the guard answers before any
    logarithm is taken. *)
Theorem calculate_path_loss_zero_distance (frequency : R) (obstacles : Z) :
  calculate_path_loss 0 frequency obstacles = 0.
Proof.
  apply calculate_path_loss_guard. lra.
Qed.

Lemma gt_true (a b : R) : b < a -> Np.gt a b = true.
Proof. intros H. unfold Np.gt. destruct (Rlt_dec b a); [reflexivity | contradiction]. Qed.

Lemma gt_false (a b : R) : a <= b -> Np.gt a b = false.
Proof. intros H. unfold Np.gt. destruct (Rlt_dec b a); [lra | reflexivity]. Qed.

Lemma log10_mult (x y : R) :
  0 < x -> 0 < y -> Np.log10 (x * y) = Np.log10 x + Np.log10 y.
Proof.
  intros Hx Hy. unfold Np.log10. rewrite ln_mult by assumption.
  unfold Rdiv. ring.
Qed.

Lemma log10_10 : Np.log10 10 = 1.
Proof.
  unfold Np.log10, Rdiv. apply Rinv_r.
  apply Rgt_not_eq, ln_10_pos.
Qed.

Lemma friis_constant_pos : 0 < 4 * PI / 3e8.
Proof.
  pose proof PI_RGT_0. apply Rdiv_lt_0_compat; lra.
Qed.

(** above distance 0 the loss is the Friis term plus ten times the
    obstacle count *)
Lemma calculate_path_loss_pos (d f : R) (k : Z) :
  0 < d ->
  calculate_path_loss d f k = Spec.friis d f + IZR k * 10.
Proof.
  intros Hd. unfold calculate_path_loss, Spec.friis.
  rewrite le_false by assumption. cbv zeta.
  rewrite mult_IZR. reflexivity.
Qed.

(** for a positive frequency the three logarithms are one *)
Lemma friis_product (d f : R) :
  0 < d -> 0 < f ->
  Spec.friis d f = 20 * Np.log10 (d * f * (4 * PI / 3e8)).
Proof.
  intros Hd Hf. unfold Spec.friis.
  pose proof friis_constant_pos as Hc.
  rewrite !log10_mult; try assumption.
  - ring.
  - apply Rmult_lt_0_compat; assumption.
Qed.

(** the two [np.where] lines compute the specification's step function *)
Lemma obstacles_wall_count (d : R) :
  (if Np.gt d 30 then 2%Z else if Np.gt d 15 then 1%Z else 0%Z)
  = Spec.wall_count d.
Proof.
  unfold Spec.wall_count, Spec.near_threshold, Spec.far_threshold,
    Np.gt, Np.le.
  destruct (Rlt_dec 30 d), (Rlt_dec 15 d), (Rle_dec d 15), (Rle_dec d 30);
    try reflexivity; lra.
Qed.

(** the entry of [received_power_grid] at a cell, for any distance *)
Lemma received_power_grid_at (X Y : Np.ndarray R) (a : ap) (i j : nat) :
  let d := Spec.distance (position a) (Np.at_ X i j) (Np.at_ Y i j) in
  Np.at_ (received_power_grid X Y a) i j
  = power_dbm a - calculate_path_loss d (frequency a) (Spec.wall_count d).
Proof.
  unfold received_power_grid, Spec.distance.
  destruct (position a) as [[ap_x ap_y] ap_z]. cbn.
  rewrite obstacles_wall_count. reflexivity.
Qed.

(** C2: at a query point at positive distance [d] from the transmitter,
    the estimate is the transmit power minus the path loss, and the path
    loss is the Friis free-space term
    [20 log10 d + 20 log10 f + 20 log10 (4 pi / c)] plus 10 dB for each
    wall, with no wall up to 15 m, one above 15 m and two above 30 m. *)
Theorem received_power_is_power_minus_path_loss
    (X Y : Np.ndarray R) (a : ap) (i j : nat) :
  let d := Spec.distance (position a) (Np.at_ X i j) (Np.at_ Y i j) in
  0 < d ->
  Np.at_ (received_power_grid X Y a) i j
  = power_dbm a
    - (20 * Np.log10 d + 20 * Np.log10 (frequency a)
       + 20 * Np.log10 (4 * PI / 3e8)
       + IZR (Spec.wall_count d) * Spec.wall_attenuation).
Proof.
  intros d Hd. rewrite received_power_grid_at. fold d.
  rewrite calculate_path_loss_pos by assumption.
  unfold Spec.friis, Spec.wall_attenuation. reflexivity.
Qed.

(** C5, as the code has it: for a fixed frequency and obstacle count the
    loss is non-decreasing over the positive distances, and constant (0)
    over the non-positive ones. *)
Theorem calculate_path_loss_monotone (d1 d2 f : R) (k : Z) :
  d1 <= d2 ->
  0 < d1 \/ d2 <= 0 ->
  calculate_path_loss d1 f k <= calculate_path_loss d2 f k.
Proof.
  intros Hle [Hpos | Hneg].
  - rewrite !calculate_path_loss_pos by lra.
    unfold Spec.friis.
    pose proof (log10_le Hpos Hle). lra.
  - rewrite !calculate_path_loss_guard by lra. lra.
Qed.

Lemma calculate_path_loss_monotone_witness :
  calculate_path_loss 1 2.4e9 1 <= calculate_path_loss 2 2.4e9 1.
Proof.
  apply calculate_path_loss_monotone; [lra | left; lra].
Defined.

Lemma log10_neg (x : R) : 0 < x -> x < 1 -> Np.log10 x < 0.
Proof.
  intros H0 H1. unfold Np.log10, Rdiv.
  pose proof ln_10_pos as H10.
  pose proof (ln_increasing _ _ H0 H1) as Hln. rewrite ln_1 in Hln.
  pose proof (Rinv_0_lt_compat _ H10) as Hinv.
  nra.
Qed.

(** C5 fails from distance 0: the guard returns 0 there, and one
    millimetre away the formula gives a negative loss
    (20 log10 (0.032 pi), about -20 dB). *)
Lemma calculate_path_loss_not_monotone_from_zero :
  0 <= 0.001 /\
  ~ calculate_path_loss 0 2.4e9 0 <= calculate_path_loss 0.001 2.4e9 0.
Proof.
  split; [lra |].
  rewrite (@calculate_path_loss_guard 0) by lra.
  rewrite calculate_path_loss_pos by lra.
  rewrite friis_product by lra.
  assert (H : Np.log10 (0.001 * 2.4e9 * (4 * PI / 3e8)) < 0).
  { pose proof PI_RGT_0. pose proof PI_4.
    apply log10_neg; lra. }
  lra.
Qed.

End PathLoss.

(** ** The aggregator, cell by cell *)

Section CellLoop.

Local Open Scope R_scope.

Lemma gt_Rmax (r s : R) : (if Np.gt r s then r else s) = Rmax s r.
Proof.
  unfold Np.gt, Rmax.
  destruct (Rlt_dec s r), (Rle_dec s r); try reflexivity; lra.
Qed.

Lemma fold_Rmax_shift (l : list R) (s r : R) :
  fold_right Rmax (Rmax s r) l = Rmax r (fold_right Rmax s l).
Proof.
  induction l as [| x l IH]; cbn.
  - apply Rmax_comm.
  - rewrite IH. rewrite !Rmax_assoc. f_equal. apply Rmax_comm.
Qed.

(** the running value is the maximum of the initial value and the
    estimates seen *)
Lemma cell_loop_value (ests : list R) (k : Z) (s : R) (b : Z) :
  fst (cell_loop ests k s b) = fold_right Rmax s ests.
Proof.
  revert k s b. induction ests as [| r rest IH]; intros k s b; cbn.
  - reflexivity.
  - rewrite <- fold_Rmax_shift, <- gt_Rmax.
    destruct (Np.gt r s); apply IH.
Qed.

Lemma fold_Rmax_ge_init (l : list R) (s : R) : s <= fold_right Rmax s l.
Proof.
  induction l as [| x l IH]; cbn.
  - lra.
  - pose proof (Rmax_r x (fold_right Rmax s l)). lra.
Qed.

Lemma fold_Rmax_ge_elem (l : list R) (s r : R) :
  In r l -> r <= fold_right Rmax s l.
Proof.
  induction l as [| x l IH]; cbn; [contradiction |].
  intros [-> | Hin].
  - apply Rmax_l.
  - pose proof (Rmax_r x (fold_right Rmax s l)). specialize (IH Hin). lra.
Qed.

(** the running index is the initial one or the index of an estimate *)
Lemma cell_loop_index_range (ests : list R) (k : Z) (s : R) (b : Z) :
  let w := snd (cell_loop ests k s b) in
  w = b \/ (k <= w < k + Z.of_nat (length ests))%Z.
Proof.
  revert k s b. induction ests as [| r rest IH]; intros k s b; cbn zeta.
  - left. reflexivity.
  - cbn [cell_loop length]. destruct (Np.gt r s).
    + specialize (IH (k + 1)%Z r k). cbn zeta in IH. right. lia.
    + specialize (IH (k + 1)%Z s b). cbn zeta in IH. lia.
Qed.

(** the initial index survives exactly when no estimate exceeds the
    initial value *)
Lemma cell_loop_sentinel (ests : list R) (k : Z) (s : R) (b : Z) :
  (b < k)%Z ->
  snd (cell_loop ests k s b) = b <-> (forall r, In r ests -> ~ r > s).
Proof.
  revert k. induction ests as [| r rest IH]; intros k Hb; cbn [cell_loop].
  - cbn. tauto.
  - destruct (Np.gt r s) eqn:E.
    + assert (Hr : s < r).
      { unfold Np.gt in E. destruct (Rlt_dec s r); [assumption | discriminate]. }
      split.
      * intros Hw. pose proof (cell_loop_index_range rest (k + 1) r k) as Hi.
        cbn zeta in Hi. lia.
      * intros Hall. exfalso. apply (Hall r); [left; reflexivity | lra].
    + assert (Hr : ~ s < r).
      { unfold Np.gt in E. destruct (Rlt_dec s r); [discriminate | assumption]. }
      rewrite (IH (k + 1)%Z) by lia. split.
      * intros Hall x [<- | Hin]; [lra | now apply Hall].
      * intros Hall x Hin. apply Hall. now right.
Qed.

Lemma cell_loop_app (l1 l2 : list R) (k : Z) (s : R) (b : Z) :
  cell_loop (l1 ++ l2) k s b
  = cell_loop l2 (k + Z.of_nat (length l1))
      (fst (cell_loop l1 k s b)) (snd (cell_loop l1 k s b)).
Proof.
  revert k s b. induction l1 as [| r l1 IH]; intros k s b.
  - cbn. now rewrite Z.add_0_r.
  - cbn [app cell_loop length].
    replace (k + Z.of_nat (S (length l1)))%Z
      with (k + 1 + Z.of_nat (length l1))%Z by lia.
    destruct (Np.gt r s); apply IH.
Qed.

(** once a later estimate takes the lead, a lower start gives the same
    result *)
Lemma cell_loop_overtaken (l : list R) (k : Z) (s r : R) (b b' : Z) :
  s <= r ->
  snd (cell_loop l k r b) <> b ->
  cell_loop l k s b' = cell_loop l k r b.
Proof.
  revert k s b'. induction l as [| x l IH]; intros k s b' Hsr Hw.
  - cbn in Hw. contradiction.
  - cbn [cell_loop] in *. destruct (Np.gt x r) eqn:Er.
    + assert (r < x).
      { unfold Np.gt in Er. destruct (Rlt_dec r x); [assumption | discriminate]. }
      rewrite gt_true by lra. reflexivity.
    + assert (x <= r).
      { unfold Np.gt in Er. destruct (Rlt_dec r x); [discriminate | lra]. }
      destruct (Np.gt x s); apply IH; assumption.
Qed.

(** an estimate that does not end as the winner can be dropped *)
Lemma cell_loop_drop_nonwinner (l1 l2 : list R) (r : R) (k : Z) (s : R)
    (b : Z) :
  let idx := (k + Z.of_nat (length l1))%Z in
  snd (cell_loop (l1 ++ r :: l2) k s b) <> idx ->
  cell_loop (l1 ++ r :: l2) k s b
  = cell_loop l2 (idx + 1)
      (fst (cell_loop l1 k s b)) (snd (cell_loop l1 k s b)).
Proof.
  intros idx. rewrite cell_loop_app. fold idx.
  cbn [cell_loop]. destruct (Np.gt r (fst (cell_loop l1 k s b))) eqn:E.
  - intros Hw. symmetry. apply cell_loop_overtaken; [| assumption].
    unfold Np.gt in E.
    destruct (Rlt_dec (fst (cell_loop l1 k s b)) r); [lra | discriminate].
  - reflexivity.
Qed.

End CellLoop.

(** ** The aggregator on arrays *)

Section Aggregator.

Import RealBuildingCoverage.
Local Open Scope R_scope.

Lemma received_power_grid_shape (X Y : Np.ndarray R) (a : ap) :
  Np.nrows (received_power_grid X Y a) = Np.nrows X
  /\ Np.ncols (received_power_grid X Y a) = Np.ncols X.
Proof.
  unfold received_power_grid.
  destruct (position a) as [[ap_x ap_y] ap_z]. cbn. split; reflexivity.
Qed.

(** the loop, read at one cell, is [cell_loop] on that cell's estimates *)
Lemma coverage_loop_at (X Y : Np.ndarray R) (aps : list ap) (k : Z)
    (S : Np.ndarray R) (B : Np.ndarray Z) (i j : nat) :
  (Np.at_ (fst (coverage_loop X Y k aps (S, B))) i j,
   Np.at_ (snd (coverage_loop X Y k aps (S, B))) i j)
  = cell_loop (estimates_at X Y aps i j) k (Np.at_ S i j) (Np.at_ B i j).
Proof.
  revert k S B. induction aps as [| a rest IH]; intros k S B.
  - reflexivity.
  - cbn [coverage_loop estimates_at map cell_loop update_coverage].
    rewrite IH. cbn [Np.where_ Np.where_scalar Np.map3 Np.map2 Np.at_].
    fold (estimates_at X Y rest i j).
    destruct (Np.gt (Np.at_ (received_power_grid X Y a) i j) (Np.at_ S i j));
      reflexivity.
Qed.

Lemma coverage_loop_shape (X Y : Np.ndarray R) (aps : list ap) (k : Z)
    (S : Np.ndarray R) (B : Np.ndarray Z) :
  Np.nrows S = Np.nrows X -> Np.ncols S = Np.ncols X ->
  Np.nrows (fst (coverage_loop X Y k aps (S, B))) = Np.nrows X
  /\ Np.ncols (fst (coverage_loop X Y k aps (S, B))) = Np.ncols X.
Proof.
  revert k S B. induction aps as [| a rest IH]; intros k S B Hr Hc.
  - cbn. split; assumption.
  - cbn [coverage_loop update_coverage]. apply IH; cbn;
      apply received_power_grid_shape.
Qed.

Lemma reduce_axis0_nonempty (op : R -> R -> R) (l : list (R * R)) :
  l <> [] -> exists m, Np.reduce_axis0 op l = Some m.
Proof.
  destruct l as [| [x y] rest]; [congruence | intros _]. cbn.
  destruct (Np.reduce_axis0 op rest) as [[mx my] |]; eauto.
Qed.

(** what [simulate_coverage_grid] returns once the bounding box of the
    positions is known *)
Lemma simulate_coverage_grid_returns (l : list ap) (b : building)
    (res mn_x mn_y mx_x mx_y : R) :
  let all_positions :=
    map (fun a => let '(x, y, _) := position a in (x, y)) l in
  Np.min_axis0 all_positions = Some (mn_x, mn_y) ->
  Np.max_axis0 all_positions = Some (mx_x, mx_y) ->
  exists cov,
    simulate_coverage_grid l b res = Py.Return cov
    /\ Np.nrows (signal_strength cov)
       = Z.to_nat (Zceil ((mx_y + 20 - (mn_y - 20)) / res))
    /\ Np.ncols (signal_strength cov)
       = Z.to_nat (Zceil ((mx_x + 20 - (mn_x - 20)) / res))
    /\ forall i j,
         Np.at_ (X cov) i j = mn_x - 20 + INR j * res
         /\ Np.at_ (Y cov) i j = mn_y - 20 + INR i * res
         /\ (Np.at_ (signal_strength cov) i j, Np.at_ (best_ap cov) i j)
            = cell_loop (estimates_at (X cov) (Y cov) l i j) 0 0 (-1).
Proof.
  intros all_positions Hmin Hmax. unfold simulate_coverage_grid.
  fold all_positions. rewrite Hmin, Hmax. cbv zeta.
  cbn [Np.meshgrid].
  match goal with
  | |- context [coverage_loop ?gx ?gy 0 l _] =>
      set (GX := gx); set (GY := gy)
  end.
  pose proof (coverage_loop_at GX GY l 0
                (Np.zeros_like GX) (Np.full_like GX (-1)%Z)) as Hat.
  pose proof (@coverage_loop_shape GX GY l 0%Z
                (Np.zeros_like GX) (Np.full_like GX (-1)%Z)
                eq_refl eq_refl) as Hshape.
  destruct (coverage_loop GX GY 0 l
              (Np.zeros_like GX, Np.full_like GX (-1)%Z)) as [sig best].
  eexists. split; [reflexivity |]. cbn [signal_strength best_ap X Y].
  cbn [fst snd] in Hat, Hshape. destruct Hshape as [Hr Hc].
  split; [exact Hr |]. split; [exact Hc |].
  intros i j. split; [reflexivity |]. split; [reflexivity |].
  apply Hat.
Qed.

End Aggregator.

(** ** Estimates of a loaded access point (2.4 GHz, 20 dBm) *)

Section Estimates.

Import RealBuildingCoverage.
Local Open Scope R_scope.

Variables (X Y : Np.ndarray R) (a : ap) (i j : nat).
Hypothesis Hfreq : frequency a = 2.4e9.
Hypothesis Hpower : power_dbm a = 20.

Let d := Spec.distance (position a) (Np.at_ X i j) (Np.at_ Y i j).

Lemma wall_count_nonneg (x : R) : 0 <= IZR (Spec.wall_count x).
Proof.
  unfold Spec.wall_count.
  destruct (Np.le x Spec.near_threshold), (Np.le x Spec.far_threshold);
    apply IZR_le; lia.
Qed.

Lemma estimate_product :
  0 < d ->
  Np.at_ (received_power_grid X Y a) i j
  = 20 - (20 * Np.log10 (32 * (d * PI))
          + IZR (Spec.wall_count d) * 10).
Proof.
  intros Hd. rewrite received_power_grid_at. fold d.
  rewrite calculate_path_loss_pos by assumption.
  rewrite Hfreq, Hpower, friis_product by lra.
  replace (d * 2.4e9 * (4 * PI / 3e8)) with (32 * (d * PI)) by lra.
  reflexivity.
Qed.

(** from one metre on, the estimate is below 0 dBm *)
Lemma estimate_far :
  1 <= d -> Np.at_ (received_power_grid X Y a) i j < 0.
Proof.
  intros Hd. rewrite estimate_product by lra.
  pose proof (wall_count_nonneg d) as Hw.
  assert (H : 1 < Np.log10 (32 * (d * PI))).
  { rewrite <- log10_10. apply log10_lt; [lra |].
    pose proof PI2_3_2. nra. }
  lra.
Qed.

(** between 2 cm and 7 cm the estimate lies strictly between 0 and
    20 dBm *)
Lemma estimate_near :
  0.02 <= d <= 0.07 ->
  0 < Np.at_ (received_power_grid X Y a) i j < 20.
Proof.
  intros [Hlo Hhi]. rewrite estimate_product by lra.
  assert (Hw : Spec.wall_count d = 0%Z).
  { unfold Spec.wall_count, Spec.near_threshold. rewrite le_true by lra.
    reflexivity. }
  rewrite Hw. pose proof PI2_3_2 as H3. pose proof PI_4 as H4.
  assert (Hlt : Np.log10 (32 * (d * PI)) < 1).
  { rewrite <- log10_10. apply log10_lt; nra. }
  assert (Hgt : 0 < Np.log10 (32 * (d * PI))).
  { rewrite <- log10_1. apply log10_lt; nra. }
  lra.
Qed.

(** at distance 0 the estimate is the transmit power *)
Lemma estimate_here :
  d = 0 -> Np.at_ (received_power_grid X Y a) i j = 20.
Proof.
  intros Hd. rewrite received_power_grid_at. fold d. rewrite Hd.
  rewrite calculate_path_loss_guard by lra. lra.
Qed.

End Estimates.

(** ** The coverage map *)

Section CoverageMap.

Import RealBuildingCoverage.
Local Open Scope R_scope.

Lemma positions_nonempty (l : list ap) :
  l <> [] ->
  map (fun a => let '(x, y, _) := position a in (x, y)) l <> [].
Proof. destruct l; [congruence | discriminate]. Qed.

(** C10: on the empty transmitter list [simulate_coverage_grid] raises:
    the bounding-box reduction over zero positions is a [ValueError], and
    no grid is produced. *)
Theorem simulate_coverage_grid_empty (b : building) (res : R) :
  simulate_coverage_grid [] b res = Py.Raise Py.ValueError.
Proof. reflexivity. Qed.

(** C9: for a non-empty transmitter list the aggregator returns, and at
    every grid cell the stored signal is the maximum of 0 dBm and the
    per-transmitter estimates, hence never below 0 dBm, and the stored
    index is the sentinel -1 exactly when no estimate exceeds 0 dBm. *)
Theorem coverage_floor_and_sentinel (l : list ap) (b : building) (res : R) :
  l <> [] ->
  0 < res ->
  exists cov,
    simulate_coverage_grid l b res = Py.Return cov
    /\ forall i j,
         (i < Np.nrows (signal_strength cov))%nat ->
         (j < Np.ncols (signal_strength cov))%nat ->
         let ests := estimates_at (X cov) (Y cov) l i j in
         0 <= Np.at_ (signal_strength cov) i j
         /\ Np.at_ (signal_strength cov) i j = Spec.max_with_floor ests
         /\ (Np.at_ (best_ap cov) i j = (-1)%Z
             <-> forall r, In r ests -> ~ r > 0).
Proof.
  intros Hl _.
  destruct (reduce_axis0_nonempty Rmin (positions_nonempty Hl))
    as [[mn_x mn_y] Hmin].
  destruct (reduce_axis0_nonempty Rmax (positions_nonempty Hl))
    as [[mx_x mx_y] Hmax].
  destruct (simulate_coverage_grid_returns l b res Hmin Hmax)
    as (cov & Hret & _ & _ & Hcell).
  exists cov. split; [assumption |].
  intros i j _ _ ests. destruct (Hcell i j) as (_ & _ & Hloop).
  fold ests in Hloop.
  assert (Hs : Np.at_ (signal_strength cov) i j
               = fst (cell_loop ests 0 0 (-1))) by now rewrite <- Hloop.
  assert (Hb : Np.at_ (best_ap cov) i j
               = snd (cell_loop ests 0 0 (-1))) by now rewrite <- Hloop.
  rewrite Hs, Hb, cell_loop_value. unfold Spec.max_with_floor.
  split; [apply fold_Rmax_ge_init |]. split; [reflexivity |].
  apply cell_loop_sentinel. lia.
Qed.

Lemma grid_length_40 (lo hi : R) :
  hi - lo = 40 -> Z.to_nat (Zceil ((hi - lo) / 0.5)) = 80%nat.
Proof.
  intros H. rewrite (Zceil_eq 80); [reflexivity |]. rewrite H. lra.
Qed.

Lemma return_inj (A : Type) (x y : A) : Py.Return x = Py.Return y -> x = y.
Proof. congruence. Qed.

Lemma coverage_floor_and_sentinel_witness :
  exists cov,
    simulate_coverage_grid [Sample.ap_origin] Sample.default_building 0.5
    = Py.Return cov
    /\ 0 <= Np.at_ (signal_strength cov) 42 40.
Proof.
  destruct (@coverage_floor_and_sentinel [Sample.ap_origin]
              Sample.default_building 0.5)
    as (cov & Hret & Hcells); [discriminate | lra |].
  destruct (@simulate_coverage_grid_returns [Sample.ap_origin]
              Sample.default_building 0.5 0 0 0 0 eq_refl eq_refl)
    as (cov' & Hret' & Hr & Hc & _).
  rewrite Hret in Hret'. apply return_inj in Hret'. subst cov'.
  exists cov. split; [assumption |].
  apply Hcells.
  - rewrite Hr, grid_length_40 by lra. lia.
  - rewrite Hc, grid_length_40 by lra. lia.
Defined.

(** C1 fails on the code: with the single access point [AP_01,0,0,1.5]
    the cell at (0, 1) is one metre from it, its only estimate is below
    0 dBm (about -20 dBm), and the map stores 0 dBm there, with no
    winner: the stored value is not the maximum of the estimates. *)
Theorem coverage_stores_zero_above_maximum :
  exists cov,
    simulate_coverage_grid [Sample.ap_origin] Sample.default_building 0.5
    = Py.Return cov
    /\ (42 < Np.nrows (signal_strength cov))%nat
    /\ (40 < Np.ncols (signal_strength cov))%nat
    /\ Np.at_ (X cov) 42 40 = 0
    /\ Np.at_ (Y cov) 42 40 = 1
    /\ Np.at_ (signal_strength cov) 42 40 = 0
    /\ Np.at_ (best_ap cov) 42 40 = (-1)%Z
    /\ exists m,
         Spec.max_over
           (estimates_at (X cov) (Y cov) [Sample.ap_origin] 42 40)
         = Some m
         /\ m < 0.
Proof.
  destruct (@simulate_coverage_grid_returns [Sample.ap_origin]
              Sample.default_building 0.5 0 0 0 0 eq_refl eq_refl)
    as (cov & Hret & Hr & Hc & Hcell).
  destruct (Hcell 42%nat 40%nat) as (HX & HY & Hloop).
  assert (HX0 : Np.at_ (X cov) 42 40 = 0) by (rewrite HX; simpl; lra).
  assert (HY1 : Np.at_ (Y cov) 42 40 = 1) by (rewrite HY; simpl; lra).
  assert (Hest : Np.at_ (received_power_grid (X cov) (Y cov)
                           Sample.ap_origin) 42 40 < 0).
  { apply estimate_far; [reflexivity | cbn; lra |].
    rewrite HX0, HY1.
    cbn [Spec.distance Sample.ap_origin Sample.loaded position].
    rewrite <- sqrt_1 at 1. apply sqrt_le_1_alt. simpl. lra. }
  cbn [estimates_at map cell_loop] in Hloop.
  rewrite gt_false in Hloop by lra.
  exists cov. split; [assumption |].
  split; [rewrite Hr, grid_length_40 by lra; lia |].
  split; [rewrite Hc, grid_length_40 by lra; lia |].
  split; [assumption |]. split; [assumption |].
  split; [congruence |]. split; [congruence |].
  eexists. split; [reflexivity | assumption].
Qed.

(** Where the largest estimate is not below 0 dBm, the stored value is
    that maximum. *)
Lemma max_with_floor_max_over (l : list R) (m : R) :
  Spec.max_over l = Some m -> Spec.max_with_floor l = Rmax m 0.
Proof.
  revert m. induction l as [| r rest IH]; intros m; cbn; [discriminate |].
  destruct (Spec.max_over rest) as [m' |] eqn:E.
  - intros [= <-]. unfold Spec.max_with_floor in IH.
    rewrite (IH m' eq_refl). now rewrite Rmax_assoc.
  - intros [= <-]. destruct rest as [| x rest]; [reflexivity |].
    cbn in E. destruct (Spec.max_over rest); discriminate.
Qed.

End CoverageMap.

(** ** Moving a transmitter *)

Section MovingTransmitter.

Import RealBuildingCoverage.
Local Open Scope R_scope.

(** the loop on a given grid: replacing a transmitter that is not the
    winner at a cell, and is still not the winner there afterwards, changes
    neither the value nor the winner stored at that cell *)
Lemma coverage_loop_nonwinner_move (X Y : Np.ndarray R)
    (l1 : list ap) (a : ap) (l2 : list ap) (p : R * R * R) (i j : nat) :
  let idx := Z.of_nat (length l1) in
  let init := (Np.zeros_like X, Np.full_like X (-1)%Z) in
  let before := coverage_loop X Y 0 (l1 ++ a :: l2) init in
  let after := coverage_loop X Y 0 (l1 ++ with_position a p :: l2) init in
  Np.at_ (snd before) i j <> idx ->
  Np.at_ (snd after) i j <> idx ->
  Np.at_ (fst after) i j = Np.at_ (fst before) i j
  /\ Np.at_ (snd after) i j = Np.at_ (snd before) i j.
Proof.
  intros idx init before after Hb Ha.
  pose proof (coverage_loop_at X Y (l1 ++ a :: l2) 0
                (Np.zeros_like X) (Np.full_like X (-1)%Z) i j) as Eb.
  pose proof (coverage_loop_at X Y (l1 ++ with_position a p :: l2) 0
                (Np.zeros_like X) (Np.full_like X (-1)%Z) i j) as Ea.
  fold init in Eb, Ea. fold before in Eb. fold after in Ea.
  unfold estimates_at in Eb, Ea. rewrite map_app in Eb, Ea.
  cbn [map] in Eb, Ea.
  assert (Hlen : Z.of_nat (length (map
            (fun a0 => Np.at_ (received_power_grid X Y a0) i j) l1)) = idx)
    by (now rewrite length_map).
  rewrite cell_loop_drop_nonwinner in Eb.
  2:{ rewrite <- Eb. cbn [snd]. rewrite Hlen. exact Hb. }
  rewrite cell_loop_drop_nonwinner in Ea.
  2:{ rewrite <- Ea. cbn [snd]. rewrite Hlen. exact Ha. }
  rewrite <- Eb in Ea. split; congruence.
Qed.

Lemma distance_vertical (x y z : R) :
  Spec.distance (x, y, z) x y = Rabs (z - 1.5).
Proof.
  unfold Spec.distance.
  replace ((x - x) ^ 2 + (y - y) ^ 2 + (z - 1.5) ^ 2)
    with (Rsqr (z - 1.5)) by (unfold Rsqr; ring).
  apply sqrt_Rsqr_abs.
Qed.

Lemma cell_loop_first_wins (eA eB : R) :
  0 < eA -> eB <= eA -> cell_loop [eA; eB] 0 0 (-1) = (eA, 0%Z).
Proof.
  intros HA HB. cbn [cell_loop].
  rewrite gt_true by assumption. rewrite gt_false by assumption.
  reflexivity.
Qed.

Lemma cell_loop_second_wins (eA eB : R) :
  0 < eA -> eA < eB -> cell_loop [eA; eB] 0 0 (-1) = (eB, 1%Z).
Proof.
  intros HA HB. cbn [cell_loop].
  rewrite !gt_true by assumption. reflexivity.
Qed.

(** the estimates of the three sample access points at the point
    (10, 0) *)
Lemma estimate_ap_near (X Y : Np.ndarray R) (i j : nat) :
  Np.at_ X i j = 10 -> Np.at_ Y i j = 0 ->
  0 < Np.at_ (received_power_grid X Y Sample.ap_near) i j < 20.
Proof.
  intros HX HY. apply estimate_near; [reflexivity | cbn; lra |].
  rewrite HX, HY. cbn [Sample.ap_near Sample.loaded position].
  rewrite distance_vertical, Rabs_pos_eq; lra.
Qed.

Lemma estimate_ap_far (X Y : Np.ndarray R) (i j : nat) (z : R) :
  Np.at_ X i j = 10 -> Np.at_ Y i j = 0 -> 2.5 <= z ->
  Np.at_ (received_power_grid X Y
            (with_position Sample.ap_far (10, 0, z))) i j < 0.
Proof.
  intros HX HY Hz. apply estimate_far; [reflexivity | cbn; lra |].
  rewrite HX, HY. cbn [with_position position].
  rewrite distance_vertical, Rabs_pos_eq; lra.
Qed.

Lemma estimate_ap_moved (X Y : Np.ndarray R) (i j : nat) :
  Np.at_ X i j = 10 -> Np.at_ Y i j = 0 ->
  Np.at_ (received_power_grid X Y
            (with_position Sample.ap_far (10, 0, 1.5))) i j = 20.
Proof.
  intros HX HY. apply estimate_here; [cbn; lra |].
  rewrite HX, HY. cbn [with_position position].
  rewrite distance_vertical, Rabs_pos_eq; lra.
Qed.

Lemma ap_far_at_itself :
  Sample.ap_far = with_position Sample.ap_far (10, 0, 11.5).
Proof. reflexivity. Qed.

Lemma sample_bounding_box (z : R) :
  let all_positions :=
    map (fun a => let '(x, y, _) := position a in (x, y))
      [Sample.ap_near; with_position Sample.ap_far (10, 0, z)] in
  Np.min_axis0 all_positions = Some (10, 0)
  /\ Np.max_axis0 all_positions = Some (10, 0).
Proof.
  unfold Np.min_axis0, Np.max_axis0.
  cbn [map Np.reduce_axis0 position Sample.ap_near Sample.loaded
         with_position].
  rewrite !Rmin_left, !Rmax_left by lra. split; reflexivity.
Qed.

(** what a returned coverage map is made of *)
Lemma simulate_coverage_grid_inv (l : list ap) (b : building) (res : R)
    (cov : coverage_data) :
  simulate_coverage_grid l b res = Py.Return cov ->
  exists mn_x mn_y mx_x mx_y,
    Np.min_axis0 (map (fun a => let '(x, y, _) := position a in (x, y)) l)
    = Some (mn_x, mn_y)
    /\ Np.max_axis0 (map (fun a => let '(x, y, _) := position a in (x, y)) l)
       = Some (mx_x, mx_y)
    /\ X cov = fst (Np.meshgrid (Np.arange (mn_x - 20) (mx_x + 20) res)
                                (Np.arange (mn_y - 20) (mx_y + 20) res))
    /\ Y cov = snd (Np.meshgrid (Np.arange (mn_x - 20) (mx_x + 20) res)
                                (Np.arange (mn_y - 20) (mx_y + 20) res))
    /\ (signal_strength cov, best_ap cov)
       = coverage_loop (X cov) (Y cov) 0 l
           (Np.zeros_like (X cov), Np.full_like (X cov) (-1)%Z).
Proof.
  unfold simulate_coverage_grid.
  destruct (Np.min_axis0 _) as [[mn_x mn_y] |]; [| discriminate].
  destruct (Np.max_axis0 _) as [[mx_x mx_y] |]; [| discriminate].
  cbv zeta. cbn [Np.meshgrid].
  match goal with
  | |- context [coverage_loop ?gx ?gy 0 l ?st] =>
      destruct (coverage_loop gx gy 0 l st) as [sig best] eqn:E
  end.
  intros [= <-]. exists mn_x, mn_y, mx_x, mx_y.
  cbn [X Y signal_strength best_ap].
  repeat split; try reflexivity. symmetry. exact E.
Qed.

(** C8, as the code has it: when two runs of the aggregator on the same
    grid differ only in the position of one transmitter, and that
    transmitter is the winner at a cell in neither run, the value and the
    winner stored at that cell are the same in both. *)
Theorem nonwinner_move_preserves_cell
    (l1 : list ap) (a : ap) (l2 : list ap) (p : R * R * R)
    (b : building) (res : R) (cov cov' : coverage_data) (i j : nat) :
  simulate_coverage_grid (l1 ++ a :: l2) b res = Py.Return cov ->
  simulate_coverage_grid (l1 ++ with_position a p :: l2) b res
  = Py.Return cov' ->
  X cov' = X cov ->
  Y cov' = Y cov ->
  Np.at_ (best_ap cov) i j <> Z.of_nat (length l1) ->
  Np.at_ (best_ap cov') i j <> Z.of_nat (length l1) ->
  Np.at_ (signal_strength cov') i j = Np.at_ (signal_strength cov) i j
  /\ Np.at_ (best_ap cov') i j = Np.at_ (best_ap cov) i j.
Proof.
  intros Hret Hret' HX HY Hb Ha.
  destruct (simulate_coverage_grid_inv _ _ _ Hret)
    as (? & ? & ? & ? & _ & _ & _ & _ & Hloop).
  destruct (simulate_coverage_grid_inv _ _ _ Hret')
    as (? & ? & ? & ? & _ & _ & _ & _ & Hloop').
  rewrite HX, HY in Hloop'.
  pose proof (@coverage_loop_nonwinner_move (X cov) (Y cov) l1 a l2 p i j)
    as Hmove.
  cbv zeta in Hmove. rewrite <- Hloop, <- Hloop' in Hmove.
  apply Hmove; assumption.
Qed.

(** the sample pair at the cell (10, 0), while AP_02 stays 1 m or more
    above the receiver height: AP_01 wins *)
Lemma sample_pair_cell (z : R) :
  2.5 <= z ->
  exists cov,
    simulate_coverage_grid
      [Sample.ap_near; with_position Sample.ap_far (10, 0, z)]
      Sample.default_building 0.5 = Py.Return cov
    /\ (40 < Np.nrows (signal_strength cov))%nat
    /\ (40 < Np.ncols (signal_strength cov))%nat
    /\ Np.at_ (X cov) 40 40 = 10
    /\ Np.at_ (Y cov) 40 40 = 0
    /\ Np.at_ (best_ap cov) 40 40 = 0%Z
    /\ 0 < Np.at_ (signal_strength cov) 40 40 < 20.
Proof.
  intros Hz. destruct (sample_bounding_box z) as [Hmin Hmax].
  destruct (simulate_coverage_grid_returns _ Sample.default_building 0.5
              Hmin Hmax) as (cov & Hret & Hr & Hc & Hcell).
  destruct (Hcell 40%nat 40%nat) as (HX & HY & Hloop).
  assert (EX : Np.at_ (X cov) 40 40 = 10) by (rewrite HX; simpl; lra).
  assert (EY : Np.at_ (Y cov) 40 40 = 0) by (rewrite HY; simpl; lra).
  pose proof (estimate_ap_near _ _ _ _ EX EY) as HA.
  pose proof (estimate_ap_far _ _ _ _ EX EY Hz) as HB.
  unfold estimates_at in Hloop. cbn [map] in Hloop.
  rewrite cell_loop_first_wins in Hloop by lra.
  exists cov. split; [exact Hret |].
  split; [rewrite Hr, grid_length_40 by lra; lia |].
  split; [rewrite Hc, grid_length_40 by lra; lia |].
  split; [assumption |]. split; [assumption |].
  split; [congruence |].
  replace (Np.at_ (signal_strength cov) 40 40)
    with (Np.at_ (received_power_grid (X cov) (Y cov) Sample.ap_near) 40 40)
    by congruence.
  exact HA.
Qed.

(** two runs on the sample pair are on the same grid *)
Lemma sample_pair_same_grid (z z' : R) (cov cov' : coverage_data) :
  simulate_coverage_grid
    [Sample.ap_near; with_position Sample.ap_far (10, 0, z)]
    Sample.default_building 0.5 = Py.Return cov ->
  simulate_coverage_grid
    [Sample.ap_near; with_position Sample.ap_far (10, 0, z')]
    Sample.default_building 0.5 = Py.Return cov' ->
  X cov' = X cov /\ Y cov' = Y cov.
Proof.
  intros Hret Hret'.
  destruct (simulate_coverage_grid_inv _ _ _ Hret)
    as (mn_x & mn_y & mx_x & mx_y & Hmin & Hmax & HX & HY & _).
  destruct (simulate_coverage_grid_inv _ _ _ Hret')
    as (mn_x' & mn_y' & mx_x' & mx_y' & Hmin' & Hmax' & HX' & HY' & _).
  destruct (sample_bounding_box z) as [Bmin Bmax].
  destruct (sample_bounding_box z') as [Bmin' Bmax'].
  cbv zeta in Bmin, Bmax, Bmin', Bmax'.
  rewrite Bmin in Hmin. rewrite Bmax in Hmax.
  rewrite Bmin' in Hmin'. rewrite Bmax' in Hmax'.
  injection Hmin as <- <-. injection Hmax as <- <-.
  injection Hmin' as <- <-. injection Hmax' as <- <-.
  split; congruence.
Qed.

Lemma nonwinner_move_preserves_cell_witness :
  exists cov cov',
    simulate_coverage_grid ([Sample.ap_near] ++ Sample.ap_far :: [])
      Sample.default_building 0.5 = Py.Return cov
    /\ simulate_coverage_grid
         ([Sample.ap_near]
          ++ with_position Sample.ap_far (10, 0, 21.5) :: [])
         Sample.default_building 0.5 = Py.Return cov'
    /\ Np.at_ (signal_strength cov') 40 40
       = Np.at_ (signal_strength cov) 40 40.
Proof.
  destruct (@sample_pair_cell 11.5) as (cov & Hret & _ & _ & _ & _ & Hb & _);
    [lra |].
  destruct (@sample_pair_cell 21.5) as (cov' & Hret' & _ & _ & _ & _ & Hb' & _);
    [lra |].
  destruct (sample_pair_same_grid Hret Hret') as [HX HY].
  exists cov, cov'. split; [exact Hret |]. split; [exact Hret' |].
  refine (proj1 (@nonwinner_move_preserves_cell [Sample.ap_near]
                   Sample.ap_far [] (10, 0, 21.5) Sample.default_building
                   0.5 cov cov' 40%nat 40%nat Hret Hret' HX HY _ _)).
  - rewrite Hb. discriminate.
  - rewrite Hb'. discriminate.
Defined.

(** C8 fails as stated: with [AP_01,10,0,1.55] and [AP_02,10,0,11.5]
    the cell at (10, 0) is won by AP_01 (index 0); moving only AP_02,
    which is not the winner there, down to height 1.5 puts it on the
    cell, on the same grid, and the stored value becomes its 20 dBm. *)
Lemma moving_nonwinner_changes_cell :
  exists cov cov',
    simulate_coverage_grid [Sample.ap_near; Sample.ap_far]
      Sample.default_building 0.5 = Py.Return cov
    /\ simulate_coverage_grid
         [Sample.ap_near; with_position Sample.ap_far (10, 0, 1.5)]
         Sample.default_building 0.5 = Py.Return cov'
    /\ (X cov' = X cov /\ Y cov' = Y cov)
    /\ (40 < Np.nrows (signal_strength cov))%nat
    /\ (40 < Np.ncols (signal_strength cov))%nat
    /\ (Np.at_ (X cov) 40 40 = 10 /\ Np.at_ (Y cov) 40 40 = 0)
    /\ Np.at_ (best_ap cov) 40 40 = 0%Z
    /\ Np.at_ (signal_strength cov') 40 40
       <> Np.at_ (signal_strength cov) 40 40.
Proof.
  destruct (@sample_pair_cell 11.5)
    as (cov & Hret & Hr & Hc & EX & EY & Hb & Hs); [lra |].
  destruct (sample_bounding_box 1.5) as [Hmin' Hmax'].
  destruct (simulate_coverage_grid_returns _ Sample.default_building 0.5
              Hmin' Hmax') as (cov' & Hret' & _ & _ & Hcell').
  destruct (sample_pair_same_grid Hret Hret') as [HX HY].
  destruct (Hcell' 40%nat 40%nat) as (_ & _ & Hloop').
  assert (EX' : Np.at_ (X cov') 40 40 = 10) by (now rewrite HX).
  assert (EY' : Np.at_ (Y cov') 40 40 = 0) by (now rewrite HY).
  pose proof (estimate_ap_near _ _ _ _ EX' EY') as HA'.
  pose proof (estimate_ap_moved _ _ _ _ EX' EY') as HB'.
  unfold estimates_at in Hloop'. cbn [map] in Hloop'.
  rewrite cell_loop_second_wins in Hloop' by lra.
  exists cov, cov'. split; [exact Hret |]. split; [exact Hret' |].
  split; [split; assumption |].
  split; [assumption |]. split; [assumption |].
  split; [split; assumption |]. split; [assumption |].
  assert (E2 : Np.at_ (signal_strength cov') 40 40
               = Np.at_ (received_power_grid (X cov') (Y cov')
                           (with_position Sample.ap_far (10, 0, 1.5)))
                   40 40) by congruence.
  rewrite E2, HB'. lra.
Qed.

Lemma received_power_is_power_minus_path_loss_witness :
  Np.at_ (received_power_grid Sample.one_cell_X Sample.one_cell_Y
            Sample.ap_far) 0 0
  = 20.0
    - (20 * Np.log10 (Spec.distance (10, 0, 11.5) 10 0)
       + 20 * Np.log10 2.4e9
       + 20 * Np.log10 (4 * PI / 3e8)
       + IZR (Spec.wall_count (Spec.distance (10, 0, 11.5) 10 0))
         * Spec.wall_attenuation).
Proof.
  apply (@received_power_is_power_minus_path_loss
           Sample.one_cell_X Sample.one_cell_Y Sample.ap_far 0 0).
  cbn [Sample.ap_far Sample.loaded position Sample.one_cell_X
         Sample.one_cell_Y Np.at_].
  rewrite distance_vertical, Rabs_pos_eq; lra.
Defined.

End MovingTransmitter.

(** ** The loader of simple_demo.py *)

Section SimpleDemoLoader.

Import Py.
Local Open Scope string_scope.
Local Open Scope list_scope.

Variable float : string -> option R.
Variable fs : filesystem.

Lemma four_fields (row : list string) :
  (4 <=? length row)%nat = true ->
  exists a b c d rest, row = a :: b :: c :: d :: rest.
Proof.
  intros H. apply Nat.leb_le in H.
  destruct row as [| a [| b [| c [| d rest]]]]; cbn in H; try lia.
  now exists a, b, c, d, rest.
Qed.

Lemma short_row (row : list string) :
  (4 <=? length row)%nat = false -> Spec.parse_row float row = None.
Proof.
  intros H. apply Nat.leb_gt in H.
  destruct row as [| a [| b [| c [| d rest]]]]; cbn in H; try lia;
    reflexivity.
Qed.

(** one row: the transmitter of a valid row is appended, and exactly one
    line is printed, a warning for every other row *)
Lemma load_row_spec (row_num : Z) (row : list string)
    (transmitters : list SimpleDemo.transmitter) (w : world) :
  exists l,
    SimpleDemo.load_row float row_num row transmitters w
    = (Return (transmitters
               ++ match Spec.parse_row float row with
                  | Some t => [t]
                  | None => []
                  end),
       say w l)
    /\ Spec.is_warning l = Spec.malformed float row.
Proof.
  unfold SimpleDemo.load_row, Spec.malformed.
  destruct (4 <=? length row)%nat eqn:E.
  - destruct (four_fields row E) as (a & b & c & d & rest & ->).
    cbn [nth Spec.parse_row].
    unfold try_except, bind, to_float, ret, raise, print.
    destruct (float b) as [x |]; [| eexists; rewrite app_nil_r;
                                     split; reflexivity].
    destruct (float c) as [y |]; [| eexists; rewrite app_nil_r;
                                     split; reflexivity].
    destruct (float d) as [z |]; [| eexists; rewrite app_nil_r;
                                     split; reflexivity].
    eexists. split; reflexivity.
  - rewrite (short_row row E). rewrite app_nil_r.
    unfold bind, print, ret. eexists. split; reflexivity.
Qed.

Lemma warnings_say (w : world) (l : line) :
  Spec.warnings (say w l)
  = Spec.warnings w ++ (if Spec.is_warning l then [l] else []).
Proof.
  unfold Spec.warnings, say. cbn [stdout]. rewrite filter_app. cbn.
  destruct (Spec.is_warning l); reflexivity.
Qed.

(** the loop: the transmitters of the valid rows are appended in order,
    one warning is printed for every other row, and nothing is written *)
Lemma load_rows_spec (rows : list (list string)) (row_num : Z)
    (transmitters : list SimpleDemo.transmitter) (w : world) :
  exists w',
    SimpleDemo.load_rows float rows row_num transmitters w
    = (Return (transmitters ++ Spec.valid_transmitters float rows), w')
    /\ length (Spec.warnings w')
       = (length (Spec.warnings w) + Spec.count_malformed float rows)%nat
    /\ dirs w' = dirs w
    /\ written w' = written w.
Proof.
  revert row_num transmitters w.
  induction rows as [| row rest IH]; intros row_num transmitters w.
  - exists w. cbn. rewrite app_nil_r, Nat.add_0_r. auto.
  - cbn [SimpleDemo.load_rows]. unfold bind at 1.
    destruct (load_row_spec row_num row transmitters w) as (l & E & Hl).
    rewrite E.
    destruct (IH (row_num + 1)%Z
                (transmitters
                 ++ match Spec.parse_row float row with
                    | Some t => [t]
                    | None => []
                    end) (say w l)) as (w' & E' & Hw & Hd & Hf).
    exists w'. rewrite E'. split.
    + rewrite <- app_assoc. cbn [Spec.valid_transmitters].
      destruct (Spec.parse_row float row); reflexivity.
    + rewrite Hw, warnings_say, length_app, Hl.
      cbn [Spec.count_malformed].
      destruct (Spec.malformed float row); cbn [length];
        repeat split; try assumption; lia.
Qed.

(** [load_transmitters] on a file that exists never raises: it returns
    the transmitters of the valid rows, in order, and prints one warning
    for each row with fewer than four fields or a coordinate that is not
    a number. *)
Lemma load_transmitters_spec (filename : string) (f : file) (w : world) :
  fs filename = Some f ->
  exists w',
    SimpleDemo.load_transmitters float fs filename w
    = (Return (Spec.valid_transmitters float (csv_rows f)), w')
    /\ length (Spec.warnings w')
       = (length (Spec.warnings w)
          + Spec.count_malformed float (csv_rows f))%nat
    /\ dirs w' = dirs w
    /\ written w' = written w.
Proof.
  intros Hf. unfold SimpleDemo.load_transmitters, open_csv. rewrite Hf.
  unfold bind at 1. unfold print at 1. unfold bind at 1. unfold ret at 1.
  unfold bind at 1.
  set (w0 := say w _).
  destruct (load_rows_spec (csv_rows f) 1 [] w0) as (w1 & E & Hw & Hd & Hwr).
  rewrite E. cbn [app]. unfold bind, print, ret.
  eexists. split; [reflexivity |].
  rewrite warnings_say.
  replace (Spec.is_warning _) with false by reflexivity.
  rewrite app_nil_r, Hw. subst w0. rewrite warnings_say.
  replace (Spec.is_warning _) with false by reflexivity.
  rewrite app_nil_r. cbn [dirs written say] in *.
  repeat split; try lia; assumption.
Qed.



(** [load_ap_coordinates] of real_building_coverage.py returns the
    access points of the valid rows, in order, on a file in which every
    row of four fields or more has numeric coordinates *)
Lemma load_ap_coordinates_rows_spec (rows : list (list string))
    (aps : list RealBuildingCoverage.ap) (w : world) :
  (forall row, In row rows ->
     (4 <=? length row)%nat = true -> Spec.parse_row float row <> None) ->
  exists w',
    RealBuildingCoverage.load_rows float rows aps w
    = (Return (aps
               ++ map (fun t : string * (R * R * R) =>
                         let '(name, (x, y, z)) := t in
                         Sample.loaded name x y z)
                    (Spec.valid_transmitters float rows)), w').
Proof.
  revert aps w. induction rows as [| row rest IH]; intros aps w Hrows.
  - exists w. cbn. now rewrite app_nil_r.
  - cbn [RealBuildingCoverage.load_rows Spec.valid_transmitters].
    unfold bind at 1. unfold RealBuildingCoverage.load_row.
    destruct (4 <=? length row)%nat eqn:E.
    + pose proof (Hrows row (or_introl eq_refl) E) as Hvalid.
      destruct (four_fields row E) as (a & b & c & d & tl & ->).
      cbn [nth Spec.parse_row] in *.
      unfold bind, to_float, ret, raise, print.
      destruct (float b) as [x |]; [| congruence].
      destruct (float c) as [y |]; [| congruence].
      destruct (float d) as [z |]; [| congruence].
      edestruct IH as (w' & ->).
      * intros r Hr. apply Hrows. now right.
      * exists w'. cbn [map]. rewrite <- app_assoc. reflexivity.
    + rewrite (short_row row E). unfold ret.
      apply IH. intros r Hr. apply Hrows. now right.
Qed.

(** [main] of simple_demo.py on a file with no valid row: exit code 1,
    and no directory made nor file written *)
Lemma simple_demo_main_no_valid_row (argv : list string) (f : file)
    (w : world) :
  length argv = 3%nat ->
  fs (nth 1 argv "") = Some f ->
  Spec.valid_transmitters float (csv_rows f) = [] ->
  exists w',
    SimpleDemo.main float fs argv w = (Return 1%Z, w')
    /\ dirs w' = dirs w
    /\ written w' = written w.
Proof.
  intros Hargv Hf Hnone. unfold SimpleDemo.main.
  rewrite Hargv. cbn [Nat.eqb negb].
  unfold path_exists. rewrite Hf. cbn [negb].
  unfold bind at 1. unfold try_except. unfold bind at 1.
  destruct (load_transmitters_spec w Hf)
    as (w1 & E & _ & Hd & Hwr).
  rewrite E, Hnone. unfold bind, print, ret.
  eexists. split; [reflexivity |]. cbn. auto.
Qed.

End SimpleDemoLoader.

(** ** The loaders and pipelines on malformed files *)

Section MalformedFiles.

Import Py.
Local Open Scope string_scope.
Local Open Scope list_scope.

(** C3 fails on the code.  [load_transmitters] of simple_demo.py takes
    the row [,1.0,2.0,3.0] as a transmitter with the empty name and
    prints no warning for it.  [load_ap_coordinates] of
    demo_lightweight.py raises [ValueError] on the row
    [AP_01,abc,2.0,3.0], and drops the row [AP_01,1.0] without any
    diagnostic: it prints its two progress lines only. *)
Theorem loaders_on_bad_rows :
  (exists pos w',
     SimpleDemo.load_transmitters float_decimal
       (Sample.single_file "aps.csv" Sample.rows_empty_name) "aps.csv"
       empty_world
     = (Return [("", pos)], w')
     /\ Spec.warnings w' = [])
  /\ (exists w',
        DemoLightweight.load_ap_coordinates float_decimal
          (Sample.single_file "aps.csv" Sample.rows_non_numeric) "aps.csv"
          empty_world
        = (Raise ValueError, w'))
  /\ DemoLightweight.load_ap_coordinates float_decimal
       (Sample.single_file "aps.csv" Sample.rows_short) "aps.csv"
       empty_world
     = (Return [],
        {| stdout :=
             [mk_line "Loading AP coordinates from: {}" [FStr "aps.csv"];
              mk_line "Loaded {} AP positions" [FInt 0]];
           dirs := []; written := [] |}).
Proof.
  split; [| split].
  - eexists. eexists. split; reflexivity.
  - eexists. reflexivity.
  - reflexivity.
Qed.

(** C7 fails on [load_ap_coordinates] of real_building_coverage.py: in a
    file whose first row [AP_01,1.0,2.0,3.0] is valid and whose second
    row has a coordinate that is not a number, [float] raises
    [ValueError] out of the loader, which returns no sequence at all. *)
Theorem load_ap_coordinates_loses_valid_row :
  (exists pos,
     Spec.parse_row float_decimal ["AP_01"; "1.0"; "2.0"; "3.0"]
     = Some ("AP_01", pos))
  /\ exists w',
       RealBuildingCoverage.load_ap_coordinates float_decimal
         (Sample.single_file "aps.csv" Sample.rows_valid_then_bad)
         "aps.csv" empty_world
       = (Raise ValueError, w').
Proof.
  split.
  - eexists. reflexivity.
  - eexists. reflexivity.
Qed.

(** C4 fails on demo_lightweight.py: with no parseable row in either
    coordinate file, both test cases run to the end, each writes its
    results file and its summary with an AP count of 0, and the script
    exits with code 0. *)
Theorem demo_lightweight_no_parseable_row :
  Spec.valid_transmitters float_decimal Sample.rows_short = []
  /\ exists w',
       DemoLightweight.script float_decimal Sample.fs_no_parseable_row
         empty_world
       = (Return 0%Z, w')
       /\ map fst (written w')
          = ["./demo_2f_building/simulation_results.json";
             "./demo_2f_building/coverage_summary.txt";
             "./demo_3f_simple/simulation_results.json";
             "./demo_3f_simple/coverage_summary.txt"].
Proof.
  split; [reflexivity |].
  eexists. split; reflexivity.
Qed.

End MalformedFiles.

(** ** The validator of ap_to_sionna_pipeline.py *)

Section Validator.

Import Py.
Local Open Scope string_scope.
Local Open Scope list_scope.

Variable float : string -> option R.
Variable strip : string -> string.
Variable fs : filesystem.

(** one row: a rejected row adds one entry to [errors] and no transmitter,
    any other row adds its transmitter and no entry *)
Lemma validate_row_spec (row_num : Z) (row : list string)
    (transmitters : list SimpleDemo.transmitter) (errors : list line) :
  exists extra,
    ApToSionnaPipeline.validate_row float strip row_num row
      (transmitters, errors)
    = (transmitters ++ Spec.accepted_transmitters float strip [row],
       errors ++ extra)
    /\ length extra = Spec.count_rejected float strip [row].
Proof.
  unfold ApToSionnaPipeline.validate_row.
  cbn [Spec.accepted_transmitters Spec.count_rejected].
  unfold Spec.rejected.
  destruct (length row <? 4)%nat eqn:E.
  - rewrite short_row.
    + rewrite app_nil_r. eexists. split; reflexivity.
    + apply Nat.ltb_lt in E. apply Nat.leb_gt. lia.
  - assert (E' : (4 <=? length row)%nat = true).
    { apply Nat.ltb_ge in E. now apply Nat.leb_le. }
    destruct (four_fields row E') as (a & b & c & d & rest & ->).
    cbn [nth Spec.parse_row].
    destruct (strip a =? "") eqn:En.
    + destruct (float b), (float c), (float d); try rewrite En;
        rewrite app_nil_r; eexists; split; reflexivity.
    + destruct (float b), (float c), (float d); try rewrite En;
        try rewrite app_nil_r;
        try (eexists; split; reflexivity).
      exists []. rewrite app_nil_r. split; reflexivity.
Qed.

Lemma accepted_transmitters_cons (row : list string)
    (rest : list (list string)) :
  Spec.accepted_transmitters float strip (row :: rest)
  = Spec.accepted_transmitters float strip [row]
    ++ Spec.accepted_transmitters float strip rest.
Proof.
  cbn. destruct (Spec.parse_row float row) as [[name pos] |];
    [destruct (strip name =? "") |]; reflexivity.
Qed.

Lemma validate_rows_spec (rows : list (list string)) (row_num : Z)
    (transmitters : list SimpleDemo.transmitter) (errors : list line) :
  exists extra,
    ApToSionnaPipeline.validate_rows float strip rows row_num
      (transmitters, errors)
    = (transmitters ++ Spec.accepted_transmitters float strip rows,
       errors ++ extra)
    /\ length extra = Spec.count_rejected float strip rows.
Proof.
  revert row_num transmitters errors.
  induction rows as [| row rest IH]; intros row_num transmitters errors.
  - exists []. cbn. now rewrite !app_nil_r.
  - cbn [ApToSionnaPipeline.validate_rows].
    destruct (validate_row_spec row_num row transmitters errors)
      as (e1 & -> & H1).
    destruct (IH (row_num + 1)%Z
                (transmitters ++ Spec.accepted_transmitters float strip [row])
                (errors ++ e1)) as (e2 & -> & H2).
    exists (e1 ++ e2).
    rewrite (accepted_transmitters_cons row rest), <- !app_assoc.
    split; [reflexivity |].
    rewrite length_app, H1, H2. cbn [Spec.count_rejected]. lia.
Qed.

(** [validate_ap_coordinates] on a file that exists returns, without
    raising, the transmitters of the rows it accepts, in order, and one
    error entry for each row with fewer than four fields, a coordinate
    that is not a number or an empty name (and one more when no row is
    accepted). *)
Lemma validate_ap_coordinates_spec (ap_file : string) (f : file) :
  fs ap_file = Some f ->
  exists is_valid errors,
    ApToSionnaPipeline.validate_ap_coordinates float strip fs ap_file
    = (is_valid,
       Spec.accepted_transmitters float strip (csv_rows f), errors)
    /\ length errors
       = (Spec.count_rejected float strip (csv_rows f)
          + match Spec.accepted_transmitters float strip (csv_rows f) with
            | [] => 1
            | _ :: _ => 0
            end)%nat.
Proof.
  intros Hf. unfold ApToSionnaPipeline.validate_ap_coordinates. rewrite Hf.
  destruct (validate_rows_spec (csv_rows f) 1 [] []) as (extra & -> & H).
  cbn [app].
  destruct (Spec.accepted_transmitters float strip (csv_rows f));
    eexists; eexists; (split; [reflexivity |]).
  - rewrite length_app, H. reflexivity.
  - rewrite H. lia.
Qed.

End Validator.

(** ** More on the path loss *)

Section PathLossFacts.

Import RealBuildingCoverage.
Local Open Scope R_scope.





(** X3: The panel that plots one access point alone counts at most one wall:
    up to 30 m it shows the power the aggregator uses, and beyond 30 m it
    shows exactly 10 dB more. *)
Theorem individual_power_vs_aggregated (X Y : Np.ndarray R) (a : ap)
    (i j : nat) :
  let d := Spec.distance (position a) (Np.at_ X i j) (Np.at_ Y i j) in
  Np.at_ (individual_received_power X Y a) i j
  = Np.at_ (received_power_grid X Y a) i j
    + (if Np.gt d 30 then 10 else 0).
Proof.
  cbv zeta. rewrite received_power_grid_at.
  unfold individual_received_power, Spec.distance.
  destruct (position a) as [[ap_x ap_y] ap_z]. cbn.
  set (d := sqrt _).
  unfold Spec.wall_count, Spec.near_threshold, Spec.far_threshold.
  unfold Np.gt, Np.le.
  destruct (Rlt_dec 30 d) as [H30 | H30].
  - destruct (Rlt_dec 15 d); [| lra].
    destruct (Rle_dec d 15); [lra |]. destruct (Rle_dec d 30); [lra |].
    rewrite !calculate_path_loss_pos by lra. lra.
  - destruct (Rlt_dec 15 d), (Rle_dec d 15), (Rle_dec d 30); try lra.
Qed.

End PathLossFacts.

(** ** More on the aggregator *)

Section AggregatorFacts.

Import RealBuildingCoverage.
Local Open Scope R_scope.

(** what the loop leaves at a cell: either nothing beat the initial value,
    or the result is the first estimate that attains the maximum *)
Lemma cell_loop_winner (ests : list R) (k : Z) (s : R) (b : Z) :
  let s' := fst (cell_loop ests k s b) in
  let b' := snd (cell_loop ests k s b) in
  (b' = b /\ s' = s /\ forall r, In r ests -> r <= s)
  \/ exists n,
       b' = (k + Z.of_nat n)%Z
       /\ nth_error ests n = Some s'
       /\ s < s'
       /\ (forall r, In r ests -> r <= s')
       /\ forall m r, (m < n)%nat -> nth_error ests m = Some r -> r < s'.
Proof.
  revert k s b. induction ests as [| r rest IH]; intros k s b; cbn zeta.
  - left. cbn. tauto.
  - cbn [cell_loop]. destruct (Np.gt r s) eqn:E.
    + assert (Hr : s < r).
      { unfold Np.gt in E. destruct (Rlt_dec s r); [assumption | discriminate]. }
      right.
      destruct (IH (k + 1)%Z r k)
        as [(Hb & Hs & Hall) | (n & Hb & Hn & Hlt & Hall & Hfirst)].
      * exists 0%nat. rewrite Hb, Hs. cbn [nth_error].
        split; [lia |]. split; [reflexivity |]. split; [assumption |].
        split.
        -- intros x [<- | Hx]; [lra | now apply Hall].
        -- intros m x Hm. lia.
      * exists (S n). cbn [nth_error]. rewrite Hb, Hn.
        split; [lia |]. split; [reflexivity |]. split; [lra |].
        split.
        -- intros x [<- | Hx]; [lra | now apply Hall].
        -- intros [| m] x Hm Hx; cbn in Hx.
           ++ injection Hx as <-. lra.
           ++ apply (Hfirst m); [lia | assumption].
    + assert (Hr : r <= s).
      { unfold Np.gt in E. destruct (Rlt_dec s r); [discriminate | lra]. }
      destruct (IH (k + 1)%Z s b)
        as [(Hb & Hs & Hall) | (n & Hb & Hn & Hlt & Hall & Hfirst)].
      * left. split; [assumption |]. split; [assumption |].
        intros x [<- | Hx]; [assumption | now apply Hall].
      * right. exists (S n). cbn [nth_error]. rewrite Hb, Hn.
        split; [lia |]. split; [reflexivity |]. split; [lra |].
        split.
        -- intros x [<- | Hx]; [lra | now apply Hall].
        -- intros [| m] x Hm Hx; cbn in Hx.
           ++ injection Hx as <-. lra.
           ++ apply (Hfirst m); [lia | assumption].
Qed.

(** X4: At every cell the stored index is the sentinel -1 or the position, in
    the transmitter list, of the first transmitter whose estimate is the
    largest: the stored value is that transmitter's estimate, it is above
    0 dBm, no estimate exceeds it, and every earlier one is strictly
    below it. *)
Theorem best_ap_is_first_maximiser (l : list ap) (b : building) (res : R) :
  l <> [] ->
  0 < res ->
  exists cov,
    simulate_coverage_grid l b res = Py.Return cov
    /\ forall i j,
         let ests := estimates_at (X cov) (Y cov) l i j in
         let s := Np.at_ (signal_strength cov) i j in
         Np.at_ (best_ap cov) i j = (-1)%Z
         \/ exists n,
              Np.at_ (best_ap cov) i j = Z.of_nat n
              /\ (n < length l)%nat
              /\ nth_error ests n = Some s
              /\ 0 < s
              /\ (forall r, In r ests -> r <= s)
              /\ forall m r,
                   (m < n)%nat -> nth_error ests m = Some r -> r < s.
Proof.
  intros Hl _.
  destruct (reduce_axis0_nonempty Rmin (positions_nonempty Hl))
    as [[mn_x mn_y] Hmin].
  destruct (reduce_axis0_nonempty Rmax (positions_nonempty Hl))
    as [[mx_x mx_y] Hmax].
  destruct (simulate_coverage_grid_returns l b res Hmin Hmax)
    as (cov & Hret & _ & _ & Hcell).
  exists cov. split; [assumption |].
  intros i j ests s. destruct (Hcell i j) as (_ & _ & Hloop).
  fold ests in Hloop.
  pose proof (cell_loop_winner ests 0 0 (-1)) as Hw. cbn zeta in Hw.
  rewrite <- Hloop in Hw. cbn [fst snd] in Hw. fold s in Hw.
  destruct Hw as [(Hb & _) | (n & Hb & Hn & Hpos & Hall & Hfirst)].
  - left. assumption.
  - right. exists n. rewrite Hb. repeat split; try assumption; try lia.
    assert (Hlen : (n < length ests)%nat).
    { apply nth_error_Some. congruence. }
    unfold ests, estimates_at in Hlen. now rewrite length_map in Hlen.
Qed.

Lemma best_ap_is_first_maximiser_witness :
  exists cov,
    simulate_coverage_grid [Sample.ap_origin] Sample.default_building 0.5
    = Py.Return cov
    /\ (Np.at_ (best_ap cov) 40 40 = (-1)%Z
        \/ exists n, Np.at_ (best_ap cov) 40 40 = Z.of_nat n
                     /\ (n < 1)%nat).
Proof.
  destruct (@best_ap_is_first_maximiser [Sample.ap_origin]
              Sample.default_building 0.5)
    as (cov & Hret & Hcells); [discriminate | lra |].
  exists cov. split; [assumption |].
  destruct (Hcells 40%nat 40%nat) as [H | (n & Hn & Hlt & _)].
  - left. assumption.
  - right. exists n. split; assumption.
Defined.

(** ** Inserting a transmitter, reordering the list *)

Lemma fold_Rmax_insert (l1 l2 : list R) (r s : R) :
  fold_right Rmax s (l1 ++ r :: l2) = Rmax r (fold_right Rmax s (l1 ++ l2)).
Proof.
  induction l1 as [| x l1 IH]; cbn.
  - reflexivity.
  - rewrite IH, !Rmax_assoc. f_equal. apply Rmax_comm.
Qed.

(** X5: On a given grid, inserting a transmitter anywhere in the list makes
    the value of every cell the larger of its former value and the new
    transmitter's estimate there: no cell gets a lower value. *)
Theorem inserting_transmitter_raises_cell (X Y : Np.ndarray R)
    (l1 l2 : list ap) (a : ap) (i j : nat) :
  let init := (Np.zeros_like X, Np.full_like X (-1)%Z) in
  Np.at_ (fst (coverage_loop X Y 0 (l1 ++ a :: l2) init)) i j
  = Rmax (Np.at_ (received_power_grid X Y a) i j)
      (Np.at_ (fst (coverage_loop X Y 0 (l1 ++ l2) init)) i j).
Proof.
  intros init.
  pose proof (coverage_loop_at X Y (l1 ++ a :: l2) 0
                (Np.zeros_like X) (Np.full_like X (-1)%Z) i j) as E1.
  pose proof (coverage_loop_at X Y (l1 ++ l2) 0
                (Np.zeros_like X) (Np.full_like X (-1)%Z) i j) as E2.
  apply (f_equal fst) in E1. apply (f_equal fst) in E2.
  cbn [fst] in E1, E2. fold init in E1, E2.
  rewrite E1, E2, !cell_loop_value.
  unfold estimates_at. rewrite !map_app. cbn [map].
  apply fold_Rmax_insert.
Qed.

Lemma fold_Rmax_permutation (l l' : list R) (s : R) :
  Permutation l l' -> fold_right Rmax s l = fold_right Rmax s l'.
Proof.
  induction 1 as [| x l l' _ IH | x y l | l l' l'' _ IH1 _ IH2]; cbn.
  - reflexivity.
  - now rewrite IH.
  - rewrite !Rmax_assoc. f_equal. apply Rmax_comm.
  - congruence.
Qed.

Lemma reduce_axis0_permutation (op : R -> R -> R) (l l' : list (R * R)) :
  (forall x y, op x y = op y x) ->
  (forall x y z, op x (op y z) = op (op x y) z) ->
  Permutation l l' -> Np.reduce_axis0 op l = Np.reduce_axis0 op l'.
Proof.
  intros Hcomm Hassoc.
  induction 1 as [| [x y] l l' _ IH | [x y] [x' y'] l | l l' l'' _ IH1 _ IH2].
  - reflexivity.
  - cbn. now rewrite IH.
  - cbn. destruct (Np.reduce_axis0 op l) as [[mx my] |].
    + f_equal. f_equal.
      * rewrite !Hassoc. f_equal. apply Hcomm.
      * rewrite !Hassoc. f_equal. apply Hcomm.
    + f_equal. f_equal; apply Hcomm.
  - congruence.
Qed.

(** X6: The signal map does not depend on the order of the transmitter list:
    a reordered list gives the same grid and the same value at every
    cell. *)
Theorem signal_map_order_independent (l l' : list ap) (b : building)
    (res : R) (cov : coverage_data) :
  Permutation l l' ->
  simulate_coverage_grid l b res = Py.Return cov ->
  exists cov',
    simulate_coverage_grid l' b res = Py.Return cov'
    /\ X cov' = X cov
    /\ Y cov' = Y cov
    /\ forall i j,
         Np.at_ (signal_strength cov') i j = Np.at_ (signal_strength cov) i j.
Proof.
  intros Hperm Hret.
  destruct (simulate_coverage_grid_inv _ _ _ Hret)
    as (mn_x & mn_y & mx_x & mx_y & Hmin & Hmax & HX & HY & Hloop).
  pose proof (Permutation_map
                (fun a => let '(x, y, _) := position a in (x, y)) Hperm)
    as Hpos.
  assert (Hmin' := Hmin). assert (Hmax' := Hmax).
  unfold Np.min_axis0 in Hmin'. unfold Np.max_axis0 in Hmax'.
  rewrite (reduce_axis0_permutation Rmin Rmin_comm Rmin_assoc Hpos) in Hmin'.
  rewrite (reduce_axis0_permutation Rmax Rmax_comm Rmax_assoc Hpos) in Hmax'.
  destruct (simulate_coverage_grid_returns l' b res Hmin' Hmax')
    as (cov' & Hret' & _ & _ & Hcell').
  destruct (simulate_coverage_grid_inv _ _ _ Hret')
    as (a1 & a2 & a3 & a4 & Hmin2 & Hmax2 & HX' & HY' & _).
  unfold Np.min_axis0 in Hmin2. unfold Np.max_axis0 in Hmax2.
  rewrite Hmin' in Hmin2. rewrite Hmax' in Hmax2.
  injection Hmin2 as <- <-. injection Hmax2 as <- <-.
  assert (EX : X cov' = X cov) by congruence.
  assert (EY : Y cov' = Y cov) by congruence.
  exists cov'. repeat split; try assumption.
  intros i j. destruct (Hcell' i j) as (_ & _ & Hl').
  apply (f_equal fst) in Hl'. cbn [fst] in Hl'. rewrite Hl'.
  pose proof (coverage_loop_at (X cov) (Y cov) l 0
                (Np.zeros_like (X cov)) (Np.full_like (X cov) (-1)%Z) i j)
    as Hl.
  rewrite <- Hloop in Hl. apply (f_equal fst) in Hl. cbn [fst] in Hl.
  rewrite Hl, !cell_loop_value, EX, EY.
  apply fold_Rmax_permutation. unfold estimates_at.
  apply Permutation_map, Permutation_sym, Hperm.
Qed.

Lemma signal_map_order_independent_witness :
  exists cov cov',
    simulate_coverage_grid [Sample.ap_near; Sample.ap_far]
      Sample.default_building 0.5 = Py.Return cov
    /\ simulate_coverage_grid [Sample.ap_far; Sample.ap_near]
         Sample.default_building 0.5 = Py.Return cov'
    /\ Np.at_ (signal_strength cov') 40 40
       = Np.at_ (signal_strength cov) 40 40.
Proof.
  destruct (@sample_pair_cell 11.5) as (cov & Hret & _); [lra |].
  destruct (@signal_map_order_independent
              [Sample.ap_near; Sample.ap_far]
              [Sample.ap_far; Sample.ap_near]
              Sample.default_building 0.5 cov
              (perm_swap _ _ _) Hret)
    as (cov' & Hret' & _ & _ & Hcells).
  exists cov, cov'. split; [exact Hret |]. split; [exact Hret' |].
  apply Hcells.
Defined.

End AggregatorFacts.

(** ** The grid and the coverage percentage *)

Section GridFacts.

Import RealBuildingCoverage.
Local Open Scope R_scope.

Lemma count_row (g : nat -> bool) (cols : list nat) (acc : nat) :
  fold_right (fun j acc' => if g j then S acc' else acc') acc cols
  = (length (filter g cols) + acc)%nat.
Proof.
  induction cols as [| j cols IH]; cbn; [reflexivity |].
  rewrite IH. destruct (g j); cbn; lia.
Qed.

Lemma filter_map_length (A B : Type) (f : B -> bool) (h : A -> B)
    (l : list A) :
  length (filter f (map h l)) = length (filter (fun x => f (h x)) l).
Proof.
  induction l as [| x l IH]; cbn; [reflexivity |].
  destruct (f (h x)); cbn; now rewrite IH.
Qed.

(** [np.sum(mask)] counts the entries that satisfy the mask *)
Lemma count_true_filter (T : Type) (f : T -> bool) (a : Np.ndarray T) :
  Np.count_true (Np.map1 f a) = length (filter f (Np.flatten a)).
Proof.
  unfold Np.count_true, Np.flatten. cbn [Np.map1 Np.nrows Np.ncols Np.at_].
  induction (seq 0 (Np.nrows a)) as [| i rows IH]; cbn; [reflexivity |].
  rewrite count_row, IH, filter_app, length_app, filter_map_length.
  reflexivity.
Qed.

Lemma flatten_length (T : Type) (a : Np.ndarray T) :
  length (Np.flatten a) = Np.size a.
Proof.
  unfold Np.flatten, Np.size.
  rewrite <- (length_seq (Np.nrows a) 0) at 2.
  induction (seq 0 (Np.nrows a)) as [| i rows IH]; cbn; [reflexivity |].
  now rewrite length_app, IH, length_map, length_seq.
Qed.

Lemma flatten_In (T : Type) (a : Np.ndarray T) (x : T) :
  In x (Np.flatten a) ->
  exists i j, (i < Np.nrows a)%nat /\ (j < Np.ncols a)%nat
              /\ x = Np.at_ a i j.
Proof.
  unfold Np.flatten. intros H. apply in_flat_map in H.
  destruct H as (i & Hi & Hx). apply in_map_iff in Hx.
  destruct Hx as (j & <- & Hj). apply in_seq in Hi. apply in_seq in Hj.
  exists i, j. repeat split; lia.
Qed.

Lemma filter_all (A : Type) (f : A -> bool) (l : list A) :
  (forall x, In x l -> f x = true) -> filter f l = l.
Proof.
  induction l as [| x l IH]; cbn; intros H; [reflexivity |].
  rewrite (H x (or_introl eq_refl)), IH; [reflexivity |].
  intros y Hy. apply H. now right.
Qed.

(** the column-wise minimum is the least coordinate and is attained, and
    so is the maximum *)
Lemma min_axis0_spec (l : list (R * R)) (mx my : R) :
  Np.min_axis0 l = Some (mx, my) ->
  (forall p, In p l -> mx <= fst p /\ my <= snd p)
  /\ (exists p, In p l /\ fst p = mx) /\ (exists p, In p l /\ snd p = my).
Proof.
  unfold Np.min_axis0. revert mx my.
  induction l as [| [x y] l IH]; intros mx my; cbn; [discriminate |].
  destruct (Np.reduce_axis0 Rmin l) as [[ax ay] |] eqn:E.
  - intros [= <- <-]. destruct (IH ax ay eq_refl) as (Hall & (p & Hp & Hpx) & (q & Hq & Hqy)).
    split; [| split].
    + intros p' [<- | Hin]; cbn.
      * split; apply Rmin_l.
      * destruct (Hall p' Hin). pose proof (Rmin_r x ax). pose proof (Rmin_r y ay).
        split; lra.
    + unfold Rmin. destruct (Rle_dec x ax).
      * exists (x, y). split; [now left | reflexivity].
      * exists p. split; [now right | assumption].
    + unfold Rmin. destruct (Rle_dec y ay).
      * exists (x, y). split; [now left | reflexivity].
      * exists q. split; [now right | assumption].
  - intros [= <- <-]. destruct l as [| [x' y'] l'].
    + split; [| split].
      * intros p [<- | []]. cbn. lra.
      * exists (x, y). split; [now left | reflexivity].
      * exists (x, y). split; [now left | reflexivity].
    + cbn in E. destruct (Np.reduce_axis0 Rmin l') as [[? ?] |]; discriminate.
Qed.

Lemma max_axis0_spec (l : list (R * R)) (mx my : R) :
  Np.max_axis0 l = Some (mx, my) ->
  (forall p, In p l -> fst p <= mx /\ snd p <= my)
  /\ (exists p, In p l /\ fst p = mx) /\ (exists p, In p l /\ snd p = my).
Proof.
  unfold Np.max_axis0. revert mx my.
  induction l as [| [x y] l IH]; intros mx my; cbn; [discriminate |].
  destruct (Np.reduce_axis0 Rmax l) as [[ax ay] |] eqn:E.
  - intros [= <- <-]. destruct (IH ax ay eq_refl) as (Hall & (p & Hp & Hpx) & (q & Hq & Hqy)).
    split; [| split].
    + intros p' [<- | Hin]; cbn.
      * split; apply Rmax_l.
      * destruct (Hall p' Hin). pose proof (Rmax_r x ax). pose proof (Rmax_r y ay).
        split; lra.
    + unfold Rmax. destruct (Rle_dec x ax).
      * exists p. split; [now right | assumption].
      * exists (x, y). split; [now left | reflexivity].
    + unfold Rmax. destruct (Rle_dec y ay).
      * exists q. split; [now right | assumption].
      * exists (x, y). split; [now left | reflexivity].
  - intros [= <- <-]. destruct l as [| [x' y'] l'].
    + split; [| split].
      * intros p [<- | []]. cbn. lra.
      * exists (x, y). split; [now left | reflexivity].
      * exists (x, y). split; [now left | reflexivity].
    + cbn in E. destruct (Np.reduce_axis0 Rmax l') as [[? ?] |]; discriminate.
Qed.

(** the samples of [np.arange] over a positive span with a positive step:
    there is at least one, and all lie in the half-open span *)
Lemma arange_span (start stop step : R) :
  start < stop -> 0 < step ->
  (0 < Np.len (Np.arange start stop step))%nat
  /\ forall k, (k < Np.len (Np.arange start stop step))%nat ->
       start <= Np.get (Np.arange start stop step) k < stop.
Proof.
  intros Hspan Hstep. cbn [Np.arange Np.len Np.get].
  set (q := (stop - start) / step).
  assert (Hq : 0 < q) by (apply Rdiv_lt_0_compat; lra).
  destruct (Zceil_bound q) as [Hlo Hhi].
  assert (Hc : (0 < Zceil q)%Z).
  { apply lt_IZR. lra. }
  split; [lia |].
  intros k Hk. pose proof (pos_INR k) as Hk0.
  assert (Hkc : IZR (Z.of_nat k) <= IZR (Zceil q) - 1).
  { rewrite <- minus_IZR. apply IZR_le. lia. }
  rewrite <- INR_IZR_INZ in Hkc.
  assert (Hkq : INR k < q) by lra.
  assert (Hmul : INR k * step < q * step)
    by (apply Rmult_lt_compat_r; assumption).
  replace (q * step) with (stop - start) in Hmul
    by (unfold q; field; lra).
  split; [nra | lra].
Qed.

(** the grid of a non-empty transmitter list at a positive resolution *)
Lemma simulate_grid_spec (l : list ap) (b : building) (res : R) :
  l <> [] ->
  0 < res ->
  exists cov mn_x mn_y mx_x mx_y,
    simulate_coverage_grid l b res = Py.Return cov
    /\ (forall a, In a l ->
          let '(x, y, _) := position a in
          mn_x <= x <= mx_x /\ mn_y <= y <= mx_y)
    /\ (exists a1 a2 a3 a4,
          (In a1 l /\ fst (fst (position a1)) = mn_x)
          /\ (In a2 l /\ snd (fst (position a2)) = mn_y)
          /\ (In a3 l /\ fst (fst (position a3)) = mx_x)
          /\ (In a4 l /\ snd (fst (position a4)) = mx_y))
    /\ (0 < Np.nrows (X cov))%nat
    /\ (0 < Np.ncols (X cov))%nat
    /\ Np.at_ (X cov) 0 0 = mn_x - 20
    /\ Np.at_ (Y cov) 0 0 = mn_y - 20
    /\ forall i j,
         (i < Np.nrows (X cov))%nat -> (j < Np.ncols (X cov))%nat ->
         mn_x - 20 <= Np.at_ (X cov) i j < mx_x + 20
         /\ mn_y - 20 <= Np.at_ (Y cov) i j < mx_y + 20.
Proof.
  intros Hl Hres.
  destruct (reduce_axis0_nonempty Rmin (positions_nonempty Hl))
    as [[mn_x mn_y] Hmin].
  destruct (reduce_axis0_nonempty Rmax (positions_nonempty Hl))
    as [[mx_x mx_y] Hmax].
  destruct (simulate_coverage_grid_returns l b res Hmin Hmax)
    as (cov & Hret & _ & _ & _).
  destruct (simulate_coverage_grid_inv _ _ _ Hret)
    as (a1 & a2 & a3 & a4 & Hmin2 & Hmax2 & HX & HY & _).
  unfold Np.min_axis0 in Hmin2. unfold Np.max_axis0 in Hmax2.
  rewrite Hmin in Hmin2. rewrite Hmax in Hmax2.
  injection Hmin2 as <- <-. injection Hmax2 as <- <-.
  destruct (min_axis0_spec _ Hmin) as (Hlo & (p1 & Hp1 & E1) & (p2 & Hp2 & E2)).
  destruct (max_axis0_spec _ Hmax) as (Hhi & (p3 & Hp3 & E3) & (p4 & Hp4 & E4)).
  assert (Hin : forall a, In a l ->
            In (let '(x, y, _) := position a in (x, y))
               (map (fun a => let '(x, y, _) := position a in (x, y)) l)).
  { intros a Ha. apply in_map_iff. exists a. split; [reflexivity | assumption]. }
  assert (Hbox : forall a, In a l ->
            let '(x, y, _) := position a in
            mn_x <= x <= mx_x /\ mn_y <= y <= mx_y).
  { intros a Ha. specialize (Hin a Ha).
    pose proof (Hlo _ Hin) as H1. pose proof (Hhi _ Hin) as H2.
    destruct (position a) as [[x y] z]. cbn in H1, H2. lra. }
  assert (Hx : mn_x <= mx_x /\ mn_y <= mx_y).
  { destruct l as [| a0 l0]; [congruence |].
    pose proof (Hbox a0 (or_introl eq_refl)) as H0.
    destruct (position a0) as [[x y] z]. lra. }
  destruct (@arange_span (mn_x - 20) (mx_x + 20) res) as [Hnx Hcx]; [lra | lra |].
  destruct (@arange_span (mn_y - 20) (mx_y + 20) res) as [Hny Hcy]; [lra | lra |].
  exists cov, mn_x, mn_y, mx_x, mx_y.
  split; [assumption |]. split; [assumption |].
  split.
  { apply in_map_iff in Hp1. destruct Hp1 as (b1 & Eb1 & Hb1).
    apply in_map_iff in Hp2. destruct Hp2 as (b2 & Eb2 & Hb2).
    apply in_map_iff in Hp3. destruct Hp3 as (b3 & Eb3 & Hb3).
    apply in_map_iff in Hp4. destruct Hp4 as (b4 & Eb4 & Hb4).
    exists b1, b2, b3, b4.
    destruct (position b1) as [[? ?] ?], (position b2) as [[? ?] ?],
             (position b3) as [[? ?] ?], (position b4) as [[? ?] ?].
    subst p1 p2 p3 p4. cbn in *. auto. }
  rewrite HX, HY. cbn [Np.meshgrid fst snd Np.nrows Np.ncols Np.at_].
  split; [assumption |]. split; [assumption |].
  split; [cbn; lra |]. split; [cbn; lra |].
  intros i j Hi Hj. split; [apply Hcx | apply Hcy]; assumption.
Qed.


(** the map of a non-empty transmitter list at a positive resolution has
    at least one cell, and no cell below 0 dBm *)
Lemma simulate_floor (l : list ap) (b : building) (res : R) :
  l <> [] ->
  0 < res ->
  exists cov,
    simulate_coverage_grid l b res = Py.Return cov
    /\ (0 < Np.size (signal_strength cov))%nat
    /\ forall i j, 0 <= Np.at_ (signal_strength cov) i j.
Proof.
  intros Hl Hres.
  destruct (simulate_grid_spec b Hl Hres)
    as (cov & ? & ? & ? & ? & Hret & _ & _ & Hnr & Hnc & _).
  destruct (simulate_coverage_grid_inv _ _ _ Hret)
    as (mn_x & mn_y & mx_x & mx_y & Hmin & Hmax & HX & HY & Hloop).
  destruct (simulate_coverage_grid_returns l b res Hmin Hmax)
    as (cov' & Hret' & Hr & Hc & Hcell).
  rewrite Hret in Hret'. apply return_inj in Hret'. subst cov'.
  exists cov. split; [assumption |]. split.
  - unfold Np.size. rewrite Hr, Hc.
    rewrite HX in Hnr, Hnc. cbn in Hnr, Hnc. nia.
  - intros i j. destruct (Hcell i j) as (_ & _ & Hl').
    apply (f_equal fst) in Hl'. cbn [fst] in Hl'.
    rewrite Hl', cell_loop_value. apply fold_Rmax_ge_init.
Qed.


Lemma simulate_coverage_percent (l : list ap) (b : building) (res : R)
    (cov : coverage_data) :
  simulate_coverage_grid l b res = Py.Return cov ->
  coverage_percent cov
  = INR (Np.count_true
           (Np.map1 (fun s => Np.gt s (-70)) (signal_strength cov)))
    / INR (Np.size (signal_strength cov)) * 100.
Proof.
  unfold simulate_coverage_grid.
  destruct (Np.min_axis0 _) as [[mn_x mn_y] |]; [| discriminate].
  destruct (Np.max_axis0 _) as [[mx_x mx_y] |]; [| discriminate].
  cbv zeta. cbn [Np.meshgrid].
  match goal with
  | |- context [coverage_loop ?gx ?gy 0 l ?st] =>
      destruct (coverage_loop gx gy 0 l st) as [sig best]
  end.
  intros [= <-]. reflexivity.
Qed.

(** X8: For a non-empty transmitter list and a positive resolution the
    good-coverage percentage that [simulate_coverage_grid] reports is
    always 100: no stored value is below 0 dBm, so every cell passes the
    -70 dBm threshold. *)
Theorem coverage_percent_always_100 (l : list ap) (b : building) (res : R) :
  l <> [] ->
  0 < res ->
  exists cov,
    simulate_coverage_grid l b res = Py.Return cov
    /\ coverage_percent cov = 100.
Proof.
  intros Hl Hres.
  destruct (simulate_floor b Hl Hres) as (cov & Hret & Hsize & Hfloor).
  exists cov. split; [assumption |].
  rewrite (simulate_coverage_percent _ _ _ Hret), count_true_filter.
  rewrite filter_all.
  - rewrite flatten_length. field.
    apply not_0_INR. lia.
  - intros s Hs. apply flatten_In in Hs. destruct Hs as (i & j & _ & _ & ->).
    apply gt_true. specialize (Hfloor i j). lra.
Qed.

End GridFacts.

Lemma coverage_percent_always_100_witness :
  exists cov,
    RealBuildingCoverage.simulate_coverage_grid [Sample.ap_origin]
      Sample.default_building 0.5 = Py.Return cov
    /\ RealBuildingCoverage.coverage_percent cov = 100%R.
Proof.
  apply (@coverage_percent_always_100 [Sample.ap_origin]
           Sample.default_building 0.5); [discriminate | lra].
Defined.

(** ** The coverage report *)

Section ReportFacts.

Import RealBuildingCoverage.
Local Open Scope R_scope.

Variable dir_exists : string -> bool.

Lemma amin_amax_nonempty (cells : list R) :
  cells <> [] -> exists mn mx, Np.amin cells = Some mn /\ Np.amax cells = Some mx.
Proof.
  destruct cells as [| x rest]; [congruence | intros _]. cbn. eauto.
Qed.




Lemma fold_Rmin_In (l : list R) (x : R) : In (fold_left Rmin l x) (x :: l).
Proof.
  revert x. induction l as [| z l IH]; intros x; cbn; [now left |].
  destruct (IH (Rmin x z)) as [H | H].
  - unfold Rmin in H at 1. destruct (Rle_dec x z).
    + left. assumption.
    + right. left. assumption.
  - right. right. assumption.
Qed.

Lemma filter_none (A : Type) (f : A -> bool) (l : list A) :
  (forall x, In x l -> f x = false) -> filter f l = [].
Proof.
  induction l as [| x l IH]; cbn; intros H; [reflexivity |].
  rewrite (H x (or_introl eq_refl)). apply IH.
  intros y Hy. apply H. now right.
Qed.

(** what [generate_coverage_report] returns on a map with cells, in a
    directory that is there *)
Lemma report_returns (cd : coverage_data) (b : building)
    (output_dir : string) (w : Py.world) :
  Np.size (signal_strength cd) <> 0%nat ->
  Py.dir_ready dir_exists output_dir w = true ->
  let cells := Np.flatten (signal_strength cd) in
  let percent (f : R -> bool) :=
    INR (length (filter f cells)) / INR (Np.size (signal_strength cd))
    * 100 in
  exists stats w',
    generate_coverage_report dir_exists cd b output_dir w
    = (Py.Return stats, w')
    /\ Py.dirs w' = Py.dirs w
    /\ map fst (Py.written w')
       = map fst (Py.written w)
         ++ [Py.path_join output_dir "coverage_analysis_report.txt";
             Py.path_join output_dir "coverage_data.json"]
    /\ excellent_coverage_percent stats = percent (fun s => Np.gt s (-50))
    /\ good_coverage_percent stats
       = percent (fun s => Np.gt s (-70) && Np.le s (-50))
    /\ fair_coverage_percent stats
       = percent (fun s => Np.gt s (-85) && Np.le s (-70))
    /\ poor_coverage_percent stats = percent (fun s => Np.le s (-85))
    /\ In (min_dbm stats) cells.
Proof.
  intros Hn Hdir cells percent. unfold generate_coverage_report.
  pose proof (flatten_length (signal_strength cd)) as Hlen.
  fold cells in Hlen |- *.
  destruct cells as [| c0 rest] eqn:Ecells;
    [cbn in Hlen; congruence |].
  cbn [Np.amin Np.amax].
  unfold Py.bind, Py.write_file_in, Py.write_file, Py.print, Py.ret, Py.say.
  unfold Py.dir_ready in Hdir. rewrite Hdir. cbn [Py.dirs]. rewrite Hdir.
  eexists. eexists. split; [reflexivity |].
  cbn [Py.dirs Py.written excellent_coverage_percent good_coverage_percent
       fair_coverage_percent poor_coverage_percent min_dbm].
  split; [reflexivity |].
  split; [rewrite !map_app, <- app_assoc; reflexivity |].
  unfold percent. rewrite !count_true_filter. fold cells. rewrite Ecells.
  repeat (split; [reflexivity |]).
  apply fold_Rmin_In.
Qed.

(** X9: [generate_coverage_report] raises [ValueError] on a map without
    cells and [FileNotFoundError] when its directory is not there, in
    both cases before anything is written; otherwise it returns after
    writing its two files, the text report first, and nothing else. *)
Theorem generate_coverage_report_outcome (cd : coverage_data)
    (b : building) (output_dir : string) (w : Py.world) :
  let out := generate_coverage_report dir_exists cd b output_dir w in
  (Np.size (signal_strength cd) = 0%nat ->
     out = (Py.Raise Py.ValueError, w))
  /\ (Np.size (signal_strength cd) <> 0%nat ->
      Py.dir_ready dir_exists output_dir w = false ->
      out = (Py.Raise Py.FileNotFoundError, w))
  /\ (Np.size (signal_strength cd) <> 0%nat ->
      Py.dir_ready dir_exists output_dir w = true ->
      exists stats w',
        out = (Py.Return stats, w')
        /\ Py.dirs w' = Py.dirs w
        /\ map fst (Py.written w')
           = map fst (Py.written w)
             ++ [Py.path_join output_dir "coverage_analysis_report.txt";
                 Py.path_join output_dir "coverage_data.json"]).
Proof.
  cbv zeta. unfold generate_coverage_report.
  pose proof (flatten_length (signal_strength cd)) as Hlen.
  split; [| split].
  - intros H0. rewrite H0 in Hlen.
    destruct (Np.flatten (signal_strength cd)); [reflexivity | discriminate].
  - intros Hn Hdir.
    destruct (@amin_amax_nonempty (Np.flatten (signal_strength cd)))
      as (mn & mx & -> & ->).
    { intros E. rewrite E in Hlen. cbn in Hlen. congruence. }
    unfold Py.bind, Py.write_file_in. unfold Py.dir_ready in Hdir.
    rewrite Hdir. reflexivity.
  - intros Hn Hdir.
    destruct (report_returns cd b output_dir w Hn Hdir)
      as (stats & w' & E & Hd & Hw & _).
    exists stats, w'. unfold generate_coverage_report in E. auto.
Qed.


(** X11: After [simulate_coverage_grid], on a non-empty transmitter list at a
    positive resolution, the report always reads 100 % excellent coverage
    and 0 % in the three other buckets, with a minimum that is not below
    0 dBm: every stored value is at least 0 dBm, above the -50 dBm
    threshold. *)
Theorem report_after_simulation (l : list ap) (b : building) (res : R)
    (output_dir : string) (w : Py.world) :
  l <> [] ->
  0 < res ->
  Py.dir_ready dir_exists output_dir w = true ->
  exists cov stats w',
    simulate_coverage_grid l b res = Py.Return cov
    /\ generate_coverage_report dir_exists cov b output_dir w
       = (Py.Return stats, w')
    /\ excellent_coverage_percent stats = 100
    /\ good_coverage_percent stats = 0
    /\ fair_coverage_percent stats = 0
    /\ poor_coverage_percent stats = 0
    /\ 0 <= min_dbm stats.
Proof.
  intros Hl Hres Hdir.
  destruct (simulate_floor b Hl Hres) as (cov & Hret & Hsize & Hfloor).
  assert (Hn : Np.size (signal_strength cov) <> 0%nat) by lia.
  destruct (report_returns cov b output_dir w Hn Hdir)
    as (stats & w' & E & _ & _ & He & Hg & Hf & Hp & Hmin).
  cbv zeta in He, Hg, Hf, Hp, Hmin.
  assert (Hcells : forall s, In s (Np.flatten (signal_strength cov)) ->
                     0 <= s).
  { intros s Hs. apply flatten_In in Hs.
    destruct Hs as (i & j & _ & _ & ->). apply Hfloor. }
  assert (HnR : INR (Np.size (signal_strength cov)) <> 0)
    by (apply not_0_INR; lia).
  exists cov, stats, w'. split; [assumption |]. split; [assumption |].
  rewrite He, Hg, Hf, Hp.
  rewrite filter_all.
  2:{ intros s Hs. apply gt_true. specialize (Hcells s Hs). lra. }
  rewrite !filter_none.
  - rewrite flatten_length. cbn [length INR].
    split; [field; exact HnR |].
    split; [unfold Rdiv; ring |]. split; [unfold Rdiv; ring |].
    split; [unfold Rdiv; ring |]. now apply Hcells.
  - intros s Hs. apply le_false. specialize (Hcells s Hs). lra.
  - intros s Hs. rewrite (@le_false s (-70)); [apply andb_false_r |].
    specialize (Hcells s Hs). lra.
  - intros s Hs. rewrite (@le_false s (-50)); [apply andb_false_r |].
    specialize (Hcells s Hs). lra.
Qed.

End ReportFacts.

Lemma report_after_simulation_witness :
  exists cov stats w',
    RealBuildingCoverage.simulate_coverage_grid [Sample.ap_origin]
      Sample.default_building 0.5 = Py.Return cov
    /\ RealBuildingCoverage.generate_coverage_report (fun _ => false) cov
         Sample.default_building EmptyString Py.empty_world
       = (Py.Return stats, w')
    /\ RealBuildingCoverage.excellent_coverage_percent stats = 100%R.
Proof.
  destruct (@report_after_simulation (fun _ => false) [Sample.ap_origin]
              Sample.default_building 0.5 EmptyString Py.empty_world)
    as (cov & stats & w' & H1 & H2 & H3 & _);
    [discriminate | lra | reflexivity |].
  exists cov, stats, w'. auto.
Defined.


(** ** simple_demo.py, end to end *)

Section SimpleDemoFacts.

Import Py.
Local Open Scope string_scope.
Local Open Scope list_scope.

Variable float : string -> option R.
Variable fs : filesystem.




End SimpleDemoFacts.



(** ** demo_lightweight.py *)

Section DemoLightweightFacts.

Import Py.
Local Open Scope string_scope.
Local Open Scope list_scope.
Local Open Scope py_scope.

Variable float : string -> option R.
Variable fs : filesystem.

Lemma same_files_refl (w : world) : same_files w w.
Proof. split; reflexivity. Qed.

Lemma same_files_say (w w' : world) (l : line) :
  same_files w w' -> same_files w (say w' l).
Proof. intros [Hd Hw]. split; assumption. Qed.

Lemma same_files_trans (w1 w2 w3 : world) :
  same_files w1 w2 -> same_files w2 w3 -> same_files w1 w3.
Proof. intros [H1 H2] [H3 H4]. split; congruence. Qed.


Lemma valid_transmitters_cons (row : list string)
    (rest : list (list string)) :
  Spec.valid_transmitters float (row :: rest)
  = Spec.valid_transmitters float [row]
    ++ Spec.valid_transmitters float rest.
Proof.
  cbn. destruct (Spec.parse_row float row); reflexivity.
Qed.





(** the keys of a dictionary after an assignment *)
Lemma dict_set_keys (V : Type) (d : list (string * V)) (key : string)
    (value : V) :
  map fst (DemoLightweight.dict_set d key value)
  = if existsb (String.eqb key) (map fst d) then map fst d
    else map fst d ++ [key].
Proof.
  induction d as [| [k v] d IH]; cbn; [reflexivity |].
  rewrite (String.eqb_sym key k).
  destruct (String.eqb k key) eqn:E; cbn; [reflexivity |].
  rewrite IH. destruct (existsb (String.eqb key) (map fst d)); reflexivity.
Qed.

Lemma existsb_eqb_In (key : string) (keys : list string) :
  existsb (String.eqb key) keys = true <-> In key keys.
Proof.
  rewrite existsb_exists. split.
  - intros (x & Hx & E). apply String.eqb_eq in E. now subst.
  - intros H. exists key. split; [assumption | apply String.eqb_refl].
Qed.



End DemoLightweightFacts.

Section DemoLightweightRun.

Import Py.
Local Open Scope string_scope.
Local Open Scope list_scope.
Local Open Scope py_scope.

Variable float : string -> option R.
Variable fs : filesystem.







End DemoLightweightRun.

(** ** More on the validator of ap_to_sionna_pipeline.py *)

Section ValidatorFacts.

Import Py.
Local Open Scope string_scope.
Local Open Scope list_scope.

Variable float : string -> option R.
Variable strip : string -> string.
Variable fs : filesystem.

(** every row is either accepted or rejected *)
Lemma accepted_plus_rejected (rows : list (list string)) :
  (length (Spec.accepted_transmitters float strip rows)
   + Spec.count_rejected float strip rows)%nat
  = length rows.
Proof.
  induction rows as [| row rest IH]; [reflexivity |].
  cbn [Spec.accepted_transmitters Spec.count_rejected length].
  unfold Spec.rejected.
  destruct (Spec.parse_row float row) as [[name pos] |];
    [destruct (strip name =? "") |]; cbn [length]; lia.
Qed.

(** no accepted transmitter has an empty name *)
Lemma accepted_names_nonempty (rows : list (list string)) :
  Forall (fun t : SimpleDemo.transmitter => fst t <> "")
    (Spec.accepted_transmitters float strip rows).
Proof.
  induction rows as [| row rest IH]; [constructor |].
  cbn [Spec.accepted_transmitters].
  destruct (Spec.parse_row float row) as [[name pos] |]; [| exact IH].
  destruct (strip name =? "") eqn:E; [exact IH |].
  constructor; [| exact IH].
  cbn [fst]. now apply String.eqb_neq.
Qed.

(** X19: The verdict of [validate_ap_coordinates]: it is [True] exactly when
    the list of errors is empty, which is exactly when the file exists,
    has at least one row and none of its rows is rejected; every row of
    the file has then become a transmitter.  Whatever the verdict, no
    returned transmitter has an empty name, and nothing is raised. *)
Theorem validate_ap_coordinates_verdict (ap_file : string) :
  exists is_valid transmitters errors,
    ApToSionnaPipeline.validate_ap_coordinates float strip fs ap_file
    = (is_valid, transmitters, errors)
    /\ (is_valid = true <-> errors = [])
    /\ (is_valid = true <->
        exists f, fs ap_file = Some f /\ csv_rows f <> []
                  /\ Spec.count_rejected float strip (csv_rows f) = 0%nat)
    /\ (forall f, is_valid = true -> fs ap_file = Some f ->
                  length transmitters = length (csv_rows f))
    /\ Forall (fun t : SimpleDemo.transmitter => fst t <> "") transmitters.
Proof.
  unfold ApToSionnaPipeline.validate_ap_coordinates.
  destruct (fs ap_file) as [f |].
  - destruct (validate_rows_spec float strip (csv_rows f) 1 [] [])
      as (extra & -> & H).
    cbn [app].
    pose proof (accepted_plus_rejected (csv_rows f)) as Hsum.
    pose proof (accepted_names_nonempty (csv_rows f)) as Hnames.
    destruct (Spec.accepted_transmitters float strip (csv_rows f))
      as [| t ts] eqn:Eacc.
    + eexists. eexists. eexists. split; [reflexivity |].
      rewrite length_app. cbn [length] in *.
      replace (length extra + 1 =? 0)%nat with false
        by (symmetry; apply Nat.eqb_neq; lia).
      split.
      { split; [discriminate |]. intros E. now destruct extra. }
      split.
      { split; [discriminate |].
        intros (f' & Hf & Hrows & Hrej). injection Hf as <-.
        destruct (csv_rows f); [congruence | cbn [length] in Hsum; lia]. }
      split; [discriminate | constructor].
    + eexists. eexists. eexists. split; [reflexivity |].
      cbn [length] in Hsum.
      split.
      { rewrite Nat.eqb_eq. destruct extra; cbn; split;
          congruence || discriminate || reflexivity. }
      split.
      { rewrite Nat.eqb_eq, H. split.
        - intros Hrej. exists f. split; [reflexivity |].
          split; [| exact Hrej].
          intros Hrows. rewrite Hrows in Hsum. cbn in Hsum. lia.
        - intros (f' & Hf & _ & Hrej). injection Hf as <-. exact Hrej. }
      split; [| exact Hnames].
      intros f' Hv Hf. injection Hf as <-.
      apply Nat.eqb_eq in Hv. unfold SimpleDemo.transmitter in *.
      cbn [length]. lia.
  - eexists. eexists. eexists. split; [reflexivity |].
    cbn [length Nat.eqb].
    split; [split; discriminate |].
    split; [split; [discriminate | intros (f & Hf & _); discriminate] |].
    split; [discriminate | constructor].
Qed.

End ValidatorFacts.

(** ** The building parser and the first steps of a scenario *)

Section BuildingFacts.

Import Py.
Import RealBuildingCoverage.
Local Open Scope string_scope.
Local Open Scope list_scope.
Local Open Scope py_scope.

Variable float : string -> option R.
Variable fs : filesystem.
Variable shapes_of : string -> list shape + string.

Lemma dict_set_entries (V : Type) (P : string * V -> Prop)
    (d : list (string * V)) (key : string) (value : V) :
  Forall P d -> P (key, value) ->
  Forall P (DemoLightweight.dict_set d key value).
Proof.
  intros Hd Hv. induction d as [| [k v] d IH]; cbn.
  - constructor; [assumption | constructor].
  - inversion Hd as [| ? ? Hk Hrest]; subst.
    destruct (String.eqb k key) eqn:E.
    + apply String.eqb_eq in E. subst k. constructor; assumption.
    + constructor; auto.
Qed.

Lemma dict_set_length (V : Type) (d : list (string * V)) (key : string)
    (value : V) :
  (length (DemoLightweight.dict_set d key value) <= S (length d))%nat.
Proof.
  induction d as [| [k v] d IH]; cbn; [lia |].
  destruct (String.eqb k key); cbn; lia.
Qed.

(** the three entries [classify] chooses from *)
Lemma classify_values (shape_id : string) :
  In (classify shape_id) [("wall", 15%Z); ("metal", 25%Z); ("general", 5%Z)].
Proof.
  unfold classify.
  destruct (_ || _)%bool; [now left |].
  destruct (DemoLightweight.contains "metal" _);
    [right; now left | right; right; now left].
Qed.

(** the dictionary of materials after the loop over the shapes *)
Lemma parse_shapes_spec (shapes : list shape)
    (m : list (string * (string * Z))) :
  NoDup (map fst m) ->
  Forall (fun e => snd e = classify (fst e)) m ->
  NoDup (map fst (parse_shapes shapes m))
  /\ Forall (fun e => snd e = classify (fst e)) (parse_shapes shapes m)
  /\ (forall key,
        In key (map fst (parse_shapes shapes m))
        <-> In key (map fst m)
            \/ In key (map get_id (filter has_bsdf shapes)))
  /\ (length (parse_shapes shapes m) <= length m + length shapes)%nat.
Proof.
  revert m. induction shapes as [| s rest IH]; intros m Hnd Hcl.
  - cbn. split; [assumption |]. split; [assumption |].
    split; [tauto | lia].
  - cbn [parse_shapes filter]. destruct (has_bsdf s).
    + pose proof (dict_set_keys m (get_id s) (classify (get_id s)))
        as Hkeys.
      assert (Hnd1 : NoDup (map fst (DemoLightweight.dict_set m (get_id s)
                                       (classify (get_id s))))).
      { rewrite Hkeys. destruct (existsb _ _) eqn:E; [assumption |].
        apply NoDup_app; [assumption | repeat constructor; intros [] |].
        intros x Hx [<- | []]. apply existsb_eqb_In in Hx. congruence. }
      assert (Hcl1 : Forall (fun e => snd e = classify (fst e))
                       (DemoLightweight.dict_set m (get_id s)
                          (classify (get_id s)))).
      { apply dict_set_entries; [assumption | reflexivity]. }
      destruct (IH _ Hnd1 Hcl1) as (H1 & H2 & H3 & H4).
      split; [assumption |]. split; [assumption |]. split.
      * intros key. rewrite H3, Hkeys. cbn [map In].
        destruct (existsb _ _) eqn:Ex.
        -- apply existsb_eqb_In in Ex. split; [tauto |].
           intros [H | [<- | H]]; tauto.
        -- rewrite in_app_iff. cbn [In]. tauto.
      * pose proof (dict_set_length m (get_id s) (classify (get_id s))).
        cbn [length]. lia.
    + destruct (IH m Hnd Hcl) as (H1 & H2 & H3 & H4).
      split; [assumption |]. split; [assumption |].
      split; [assumption | cbn [length]; lia].
Qed.

(** [parse_building_layout] returns and leaves directories and files as
    they are *)
Lemma parse_building_layout_total (xml_file : string) (w : world) :
  exists b w',
    parse_building_layout shapes_of xml_file w = (Return b, w')
    /\ same_files w w'.
Proof.
  unfold parse_building_layout. unfold bind at 1. unfold print at 1.
  destruct (shapes_of xml_file) as [shapes | e];
    unfold bind, print, ret; eexists; eexists;
    (split; [reflexivity |]);
    repeat apply same_files_say; apply same_files_refl.
Qed.

(** X20: [parse_building_layout] always returns, whether the scene can be
    parsed or not, and touches no directory and no file.  The bounds it
    returns are always the defaults [0, 100] x [0, 100]; the materials
    have one entry for each distinct id of a shape with a [bsdf] (none
    when the scene cannot be parsed), and the entry of an id is the one
    its name selects, so that its attenuation is 15, 25 or 5 dB. *)
Theorem parse_building_layout_outcome (xml_file : string) (w : world) :
  exists b w',
    parse_building_layout shapes_of xml_file w = (Return b, w')
    /\ same_files w w'
    /\ bounds b = (0, 100, 0, 100)%Z
    /\ NoDup (map fst (materials b))
    /\ Forall (fun e => snd e = classify (fst e)
                        /\ In (snd (snd e)) [15; 25; 5]%Z)
         (materials b)
    /\ (forall key,
          In key (map fst (materials b))
          <-> exists shapes,
                shapes_of xml_file = inl shapes
                /\ In key (map get_id (filter has_bsdf shapes)))
    /\ (forall shapes, shapes_of xml_file = inl shapes ->
          (length (materials b) <= length shapes)%nat).
Proof.
  unfold parse_building_layout. unfold bind at 1. unfold print at 1.
  destruct (shapes_of xml_file) as [shapes | e].
  - destruct (@parse_shapes_spec shapes [] (NoDup_nil _) (Forall_nil _))
      as (H1 & H2 & H3 & H4).
    unfold bind, print, ret. eexists. eexists. split; [reflexivity |].
    cbn [materials bounds].
    split; [repeat apply same_files_say; apply same_files_refl |].
    split; [reflexivity |]. split; [assumption |]. split.
    { eapply Forall_impl; [| exact H2]. intros [k v] Hv. cbn [fst snd] in *.
      split; [assumption |]. rewrite Hv.
      destruct (classify_values k) as [<- | [<- | [<- | []]]];
        cbn; tauto. }
    split.
    + intros key. rewrite H3. cbn [map In]. split.
      * intros [[] | H]. exists shapes. split; [reflexivity | assumption].
      * intros (shapes' & E & H). injection E as <-. now right.
    + intros shapes' E. injection E as <-. cbn [length] in H4. lia.
  - unfold bind, print, ret. eexists. eexists. split; [reflexivity |].
    cbn [materials bounds map].
    split; [repeat apply same_files_say; apply same_files_refl |].
    split; [reflexivity |]. split; [constructor |].
    split; [constructor |]. split.
    + intros key. split; [intros [] | intros (shapes & E & _)].
      discriminate.
    + intros shapes E. discriminate.
Qed.

(** one row of [load_ap_coordinates] of real_building_coverage.py *)
Lemma building_load_row_spec (row : list string) (l : list ap)
    (w : world) :
  exists w',
    load_row float row l w
    = (if Spec.aborts float row then Raise ValueError
       else Return (l ++ map (fun t : string * (R * R * R) =>
                                let '(name, (x, y, z)) := t in
                                Sample.loaded name x y z)
                           (Spec.valid_transmitters float [row])),
       w')
    /\ same_files w w'.
Proof.
  unfold load_row, Spec.aborts, Spec.malformed.
  cbn [Spec.valid_transmitters].
  destruct (4 <=? length row)%nat eqn:E; cbn [andb].
  - destruct (four_fields row E) as (a & b & c & d & rest & ->).
    cbn [nth Spec.parse_row].
    unfold bind, to_float, ret, raise, print.
    destruct (float b) as [x |];
      [| exists w; split; [reflexivity | apply same_files_refl]].
    destruct (float c) as [y |];
      [| exists w; split; [reflexivity | apply same_files_refl]].
    destruct (float d) as [z |];
      [| exists w; split; [reflexivity | apply same_files_refl]].
    eexists. split; [reflexivity |].
    apply same_files_say, same_files_refl.
  - rewrite (short_row float row E). cbn [map]. rewrite app_nil_r.
    exists w. split; [reflexivity | apply same_files_refl].
Qed.

Lemma building_load_rows_spec (rows : list (list string)) (l : list ap)
    (w : world) :
  exists w',
    load_rows float rows l w
    = (if existsb (Spec.aborts float) rows then Raise ValueError
       else Return (l ++ map (fun t : string * (R * R * R) =>
                                let '(name, (x, y, z)) := t in
                                Sample.loaded name x y z)
                           (Spec.valid_transmitters float rows)),
       w')
    /\ same_files w w'.
Proof.
  revert l w. induction rows as [| row rest IH]; intros l w.
  - exists w. cbn. rewrite app_nil_r.
    split; [reflexivity | apply same_files_refl].
  - cbn [load_rows existsb]. unfold bind at 1.
    destruct (building_load_row_spec row l w) as (w1 & -> & H1).
    destruct (Spec.aborts float row); cbn [orb].
    + exists w1. split; [reflexivity | assumption].
    + destruct (IH (l ++ map (fun t : string * (R * R * R) =>
                                let '(name, (x, y, z)) := t in
                                Sample.loaded name x y z)
                           (Spec.valid_transmitters float [row])) w1)
        as (w2 & -> & H2).
      exists w2. split; [| eapply same_files_trans; eassumption].
      rewrite (valid_transmitters_cons float row rest), map_app, app_assoc.
      reflexivity.
Qed.

Lemma building_load_spec (csv_file : string) (w : world) :
  exists w',
    load_ap_coordinates float fs csv_file w
    = (match fs csv_file with
       | None => Raise FileNotFoundError
       | Some f =>
           if existsb (Spec.aborts float) (csv_rows f)
           then Raise ValueError
           else Return (map (fun t : string * (R * R * R) =>
                               let '(name, (x, y, z)) := t in
                               Sample.loaded name x y z)
                          (Spec.valid_transmitters float (csv_rows f)))
       end, w')
    /\ same_files w w'.
Proof.
  unfold load_ap_coordinates, open_csv.
  unfold bind at 1. unfold print at 1.
  destruct (fs csv_file) as [f |].
  - unfold bind at 1. unfold ret at 1. unfold bind at 1.
    destruct (building_load_rows_spec (csv_rows f) []
                (say w (mk_line "Loading AP coordinates from: {}"
                          [FStr csv_file])))
      as (w1 & -> & H1).
    destruct (existsb (Spec.aborts float) (csv_rows f)).
    + exists w1. split; [reflexivity |].
      eapply same_files_trans; [| exact H1].
      apply same_files_say, same_files_refl.
    + unfold bind, print, ret. cbn [app]. eexists. split; [reflexivity |].
      apply same_files_say. eapply same_files_trans; [| exact H1].
      apply same_files_say, same_files_refl.
  - unfold bind, raise. eexists. split; [reflexivity |].
    apply same_files_say, same_files_refl.
Qed.

(** a non-empty list of access points gives a coverage map that carries
    the list *)
Lemma simulate_keeps_aps (l : list ap) (b : building) (res : R) :
  l <> [] ->
  exists cov, simulate_coverage_grid l b res = Return cov /\ aps cov = l.
Proof.
  intros Hl.
  destruct (reduce_axis0_nonempty Rmin (positions_nonempty Hl))
    as [[mn_x mn_y] Hmin].
  destruct (reduce_axis0_nonempty Rmax (positions_nonempty Hl))
    as [[mx_x mx_y] Hmax].
  unfold simulate_coverage_grid, Np.min_axis0, Np.max_axis0.
  rewrite Hmin, Hmax. cbv zeta. cbn [Np.meshgrid].
  destruct (coverage_loop _ _ 0 l _) as [sig best].
  eexists. split; reflexivity.
Qed.

(** X21: The first steps of a scenario of real_building_coverage.py, loading
    the access points, parsing the building and running the simulation,
    touch no directory and no file, and give a coverage map exactly when
    the coordinate file exists, no row of four fields or more has a
    coordinate that is not a number, and at least one row is valid; the
    map then carries the access points of the valid rows, in order.  A
    missing file raises [FileNotFoundError], and a file with a
    non-numeric coordinate or with no valid row raises [ValueError]. *)
Theorem load_and_simulate_outcome (ap_file building_file : string)
    (w : world) :
  exists o w',
    load_and_simulate float fs shapes_of ap_file building_file w = (o, w')
    /\ same_files w w'
    /\ match fs ap_file with
       | None => o = Raise FileNotFoundError
       | Some f =>
           if existsb (Spec.aborts float) (csv_rows f)
           then o = Raise ValueError
           else
             match Spec.valid_transmitters float (csv_rows f) with
             | [] => o = Raise ValueError
             | valid =>
                 exists cov,
                   o = Return cov
                   /\ aps cov
                      = map (fun t : string * (R * R * R) =>
                               let '(name, (x, y, z)) := t in
                               Sample.loaded name x y z) valid
             end
       end.
Proof.
  unfold load_and_simulate. unfold bind at 1.
  destruct (building_load_spec ap_file w) as (w1 & -> & H1).
  destruct (fs ap_file) as [f |].
  2:{ eexists. eexists. split; [reflexivity |]. split; [exact H1 |].
      reflexivity. }
  destruct (existsb (Spec.aborts float) (csv_rows f)).
  { eexists. eexists. split; [reflexivity |]. split; [exact H1 |].
    reflexivity. }
  unfold bind at 1.
  destruct (parse_building_layout_total building_file w1)
    as (b & w2 & -> & H2).
  unfold of_outcome.
  eexists. eexists. split; [reflexivity |].
  split; [eapply same_files_trans; eassumption |].
  destruct (Spec.valid_transmitters float (csv_rows f)) as [| t ts].
  - reflexivity.
  - apply simulate_keeps_aps. discriminate.
Qed.

End BuildingFacts.
